(** * react_frontend_template: environment configuration, dev proxy and API client

    A shallow embedding of the three TypeScript/JavaScript units of the
    repository:

    - the environment configuration loader ([getEnvVar], [parseBoolean],
      [parseNumber], the [config] object and [validateConfig]);
    - the development proxy set-up ([getTargetUrl] and the [onError],
      [onProxyRes] hooks handed to the proxy middleware);
    - the fetch wrapper ([getApiConfig], [ApiClient.request] and the
      [ApiError] class).

    A JavaScript string is modelled by the [string] of the bytes of its
    UTF-8 encoding (one [ascii] per byte, so one per character on the ASCII
    range), [process.env] and header records by [gmap string string], thrown
    values by an explicit result type, and the timer table of the event loop
    by a finite map from pending timer identifiers to their delays. *)

From Stdlib Require Import ZArith Ascii String List Bool Lia DecimalString DecimalPos.
From stdpp Require Import base option strings list gmap.

Local Open Scope Z_scope.
Local Open Scope string_scope.

(** ** JavaScript primitives used by the sources *)

Module JS.

(** The line feed written [\n] in the sources and the double quote that
    [JSON.stringify] emits. *)
Definition LF : string := String (ascii_of_nat 10) EmptyString.
Definition DQUOTE : string := String (ascii_of_nat 34) EmptyString.

(** A string is truthy when it is not empty; [undefined] and [null] are
    falsy.  Optional strings stand for [string | undefined] (and for
    [string | null] at [localStorage.getItem]). *)
Definition truthy_string (s : string) : bool :=
  match s with
  | EmptyString => false
  | String _ _ => true
  end.

Definition truthy (v : option string) : bool :=
  match v with
  | Some s => truthy_string s
  | None => false
  end.

(** [a || b] on possibly undefined strings. *)
Definition or_else (a b : option string) : option string :=
  if truthy a then a else b.

(** [a || 'literal']: the right operand is a string, so is the result. *)
Definition or_string (a : option string) (b : string) : string :=
  match a with
  | Some s => if truthy_string s then s else b
  | None => b
  end.

(** [v === 'literal'] for a possibly undefined [v]. *)
Definition strict_eq (v : option string) (lit : string) : bool :=
  match v with
  | Some s => String.eqb s lit
  | None => false
  end.

(** [String.prototype.toLowerCase] on the ASCII range.  No character outside
    that range lower-cases to an ASCII letter of the word [true], so the
    comparison made by [parseBoolean] is not affected by the restriction. *)
Definition lower_ascii (c : ascii) : ascii :=
  let n := nat_of_ascii c in
  if (65 <=? n)%nat && (n <=? 90)%nat then ascii_of_nat (n + 32) else c.

Fixpoint toLowerCase (s : string) : string :=
  match s with
  | EmptyString => EmptyString
  | String c r => String (lower_ascii c) (toLowerCase r)
  end.

(** [Array.prototype.join]. *)
Definition join (sep : string) (l : list string) : string :=
  String.concat sep l.

(** *** Numbers read from decimal text

    The number [parseInt] returns for a mathematical integer [v]: [v] itself
    when its magnitude is at most 2^53, since a double holds every such
    integer exactly; beyond that it is the double the platform computes for
    [v] (rounded, or infinite), which is kept symbolic as [Approx v].  The
    two zeros of a double are not told apart. *)
Inductive JSNumber : Type :=
| Exact (z : Z)
| Approx (z : Z).

Coercion Exact : Z >-> JSNumber.

Definition number_value (v : Z) : JSNumber :=
  if (Z.abs v <=? 2 ^ 53)%Z then Exact v else Approx v.

(** *** White space

    The characters [parseInt] strips from the start of its argument (the
    white space and line terminator code points of the language), each as the
    bytes of its UTF-8 encoding. *)
Definition utf8 (cp : N) : string :=
  if (cp <? 128)%N then String (ascii_of_N cp) EmptyString
  else if (cp <? 2048)%N then
    String (ascii_of_N (192 + cp / 64))
      (String (ascii_of_N (128 + cp mod 64)) EmptyString)
  else
    String (ascii_of_N (224 + cp / 4096))
      (String (ascii_of_N (128 + (cp / 64) mod 64))
         (String (ascii_of_N (128 + cp mod 64)) EmptyString)).

Definition white_space_code_points : list N :=
  [ 9; 10; 11; 12; 13; 32; 160; 5760;
    8192; 8193; 8194; 8195; 8196; 8197; 8198; 8199; 8200; 8201; 8202;
    8232; 8233; 8239; 8287; 12288; 65279 ]%N.

Definition white_space_chars : list string :=
  map utf8 white_space_code_points.

(** [w] is the encoding of one white space character. *)
Definition is_white_space (w : string) : bool :=
  existsb (String.eqb w) white_space_chars.

(** *** [parseInt(s, 10)]

    Leading white space is skipped, one sign is accepted, and the longest run
    of decimal digits that follows is read; whatever comes after the run is
    ignored.  The result is [NaN] ([None]) when the run is empty, and
    otherwise the number for the signed integer the run denotes. *)
Definition is_digit (c : ascii) : bool :=
  let n := nat_of_ascii c in
  (48 <=? n)%nat && (n <=? 57)%nat.

Definition digit_value (c : ascii) : Z :=
  Z.of_nat (nat_of_ascii c) - 48.

(** A character of the class takes one, two or three bytes. *)
Fixpoint skip_white_space (s : string) : string :=
  match s with
  | String c r =>
      if is_white_space (String c EmptyString) then skip_white_space r
      else
        match r with
        | String d r2 =>
            if is_white_space (String c (String d EmptyString))
            then skip_white_space r2
            else
              match r2 with
              | String e r3 =>
                  if is_white_space (String c (String d (String e EmptyString)))
                  then skip_white_space r3
                  else s
              | EmptyString => s
              end
        | EmptyString => s
        end
  | EmptyString => EmptyString
  end.

(** The integer denoted by the leading digit run of [s], continuing from
    [acc]. *)
Fixpoint read_digits (acc : Z) (s : string) : Z :=
  match s with
  | String c r =>
      if is_digit c then read_digits (10 * acc + digit_value c) r else acc
  | EmptyString => acc
  end.

Definition starts_with_digit (s : string) : bool :=
  match s with
  | String c _ => is_digit c
  | EmptyString => false
  end.

Definition parseInt10 (s : string) : option JSNumber :=
  let t := skip_white_space s in
  let '(sign, u) :=
    match t with
    | String "-" r => (-1, r)
    | String "+" r => (1, r)
    | _ => (1, t)
    end in
  if starts_with_digit u then Some (number_value (sign * read_digits 0 u)) else None.

(** *** JSON values and [JSON.stringify] *)

#[warnings="-register-all"]
Inductive JSON : Type :=
| JNull
| JBool (b : bool)
| JNum (n : Z)
| JStr (s : string)
| JArr (items : list JSON)
| JObj (fields : list (string * JSON)).

Definition hex_digit (n : nat) : ascii :=
  if (n <? 10)%nat then ascii_of_nat (48 + n) else ascii_of_nat (87 + n).

(** One byte of a string inside its quoted JSON form; the bytes of a
    character outside the ASCII range pass through unchanged. *)
Definition quote_char (c : ascii) : string :=
  let n := nat_of_ascii c in
  if (n =? 34)%nat then String "\" DQUOTE
  else if (n =? 92)%nat then "\\"
  else if (n =? 8)%nat then "\b"
  else if (n =? 12)%nat then "\f"
  else if (n =? 10)%nat then "\n"
  else if (n =? 13)%nat then "\r"
  else if (n =? 9)%nat then "\t"
  else if (n <? 32)%nat then
    "\u00" +:+ String (hex_digit (n / 16)) (String (hex_digit (n mod 16)) EmptyString)
  else String c EmptyString.

Fixpoint quote_body (s : string) : string :=
  match s with
  | EmptyString => EmptyString
  | String c r => quote_char c +:+ quote_body r
  end.

Definition quote (s : string) : string :=
  DQUOTE +:+ quote_body s +:+ DQUOTE.

Definition number_text (n : Z) : string :=
  DecimalString.NilZero.string_of_int (Z.to_int n).

Fixpoint stringify (j : JSON) : string :=
  match j with
  | JNull => "null"
  | JBool true => "true"
  | JBool false => "false"
  | JNum n => number_text n
  | JStr s => quote s
  | JArr items => "[" +:+ join "," (map stringify items) +:+ "]"
  | JObj fields =>
      "{" +:+ join "," (map (fun kv => quote (fst kv) +:+ ":" +:+ stringify (snd kv)) fields)
          +:+ "}"
  end.

(** *** Thrown values

    A computation either returns or throws; [E] is the type of the values it
    can throw. *)
Inductive Result (E A : Type) : Type :=
| Return (a : A)
| Throw (e : E).
Arguments Return {E A} a.
Arguments Throw {E A} e.

Definition bind {E A B} (m : Result E A) (k : A -> Result E B) : Result E B :=
  match m with
  | Return a => k a
  | Throw e => Throw e
  end.

(** An [Error] object: its [name] and its [message]. *)
Record Error : Type := mkError { name : string; message : string }.

(** [new Error(msg)]. *)
Definition new_Error (msg : string) : Error :=
  {| name := "Error"; message := msg |}.

End JS.

Notation "'let*' x ':=' m 'in' k" := (JS.bind m (fun x => k))
  (at level 10, x name, m at level 100, k at level 200).

(** ** Environment configuration (the configuration module) *)

Module Env.
Import JS.

(** [process.env]: a finite map from variable names to their values. *)
Abbreviation ProcessEnv := (gmap string string).

Record AppSection : Type := {
  app_name : string;
  app_version : string;
  app_environment : string }.

Record ApiSection : Type := {
  api_baseUrl : string;
  api_timeout : JSNumber;
  api_version : string }.

Record AuthSection : Type := {
  auth_domain : string;
  auth_clientId : string;
  auth_redirectUri : string }.

Record FirebaseSection : Type := {
  firebase_apiKey : string;
  firebase_authDomain : string;
  firebase_projectId : string;
  firebase_storageBucket : string;
  firebase_messagingSenderId : string;
  firebase_appId : string }.

Record AnalyticsSection : Type := {
  analytics_googleAnalyticsId : string;
  analytics_mixpanelToken : string }.

Record FeaturesSection : Type := {
  features_newUI : bool;
  features_betaAccess : bool;
  features_debugMode : bool }.

Record AssetsSection : Type := {
  assets_cdnUrl : string;
  assets_assetsUrl : string }.

Record SocialSection : Type := {
  social_facebookAppId : string;
  social_githubClientId : string;
  social_linkedinClientId : string }.

Record MonitoringSection : Type := {
  monitoring_sentryDsn : string;
  monitoring_hotjarId : string }.

Record DevelopmentSection : Type := {
  development_mockApi : bool;
  development_logLevel : string }.

(** [AppConfig]; an optional sub-group is [None] when it is [undefined]. *)
Record AppConfig : Type := {
  app : AppSection;
  api : ApiSection;
  auth : option AuthSection;
  firebase : option FirebaseSection;
  analytics : option AnalyticsSection;
  features : FeaturesSection;
  assets : option AssetsSection;
  social : option SocialSection;
  monitoring : option MonitoringSection;
  development : DevelopmentSection }.

Definition required_message (key : string) : string :=
  "Environment variable " +:+ key +:+ " is required but not set".

(** [getEnvVar(key, fallback?)]. *)
Definition getEnvVar (env : ProcessEnv) (key : string) (fallback : option string)
  : Result Error string :=
  let value := env !! key in
  if negb (truthy value) && negb (truthy fallback)
  then Throw (new_Error (required_message key))
  else Return (or_string (or_else value fallback) "").

(** [parseBoolean(value, fallback = false)]; the default of the second
    parameter is supplied by [parseBoolean_default]. *)
Definition parseBoolean (value : option string) (fallback : bool) : bool :=
  match value with
  | Some s => if truthy_string s then String.eqb (toLowerCase s) "true" else fallback
  | None => fallback
  end.

Definition parseBoolean_default (value : option string) : bool :=
  parseBoolean value false.

(** [parseNumber(value, fallback)]. *)
Definition parseNumber (value : option string) (fallback : JSNumber) : JSNumber :=
  match value with
  | Some s =>
      if truthy_string s then
        match parseInt10 s with
        | Some parsed => parsed
        | None => fallback
        end
      else fallback
  | None => fallback
  end.

(** The [config] object literal.  Its properties are evaluated in source
    order and the first [getEnvVar] that throws aborts the construction. *)
Definition config_auth (env : ProcessEnv) : Result Error (option AuthSection) :=
  if truthy (env !! "REACT_APP_AUTH_DOMAIN") then
    let* domain := getEnvVar env "REACT_APP_AUTH_DOMAIN" None in
    let* clientId := getEnvVar env "REACT_APP_CLIENT_ID" None in
    let* redirectUri := getEnvVar env "REACT_APP_REDIRECT_URI" None in
    Return (Some {| auth_domain := domain; auth_clientId := clientId;
                    auth_redirectUri := redirectUri |})
  else Return None.

Definition config_firebase (env : ProcessEnv) : Result Error (option FirebaseSection) :=
  if truthy (env !! "REACT_APP_FIREBASE_API_KEY") then
    let* apiKey := getEnvVar env "REACT_APP_FIREBASE_API_KEY" None in
    let* authDomain := getEnvVar env "REACT_APP_FIREBASE_AUTH_DOMAIN" None in
    let* projectId := getEnvVar env "REACT_APP_FIREBASE_PROJECT_ID" None in
    let* storageBucket := getEnvVar env "REACT_APP_FIREBASE_STORAGE_BUCKET" None in
    let* messagingSenderId := getEnvVar env "REACT_APP_FIREBASE_MESSAGING_SENDER_ID" None in
    let* appId := getEnvVar env "REACT_APP_FIREBASE_APP_ID" None in
    Return (Some {| firebase_apiKey := apiKey; firebase_authDomain := authDomain;
                    firebase_projectId := projectId;
                    firebase_storageBucket := storageBucket;
                    firebase_messagingSenderId := messagingSenderId;
                    firebase_appId := appId |})
  else Return None.

Definition config_analytics (env : ProcessEnv) : Result Error (option AnalyticsSection) :=
  if truthy (or_else (env !! "REACT_APP_GOOGLE_ANALYTICS_ID")
                     (env !! "REACT_APP_MIXPANEL_TOKEN")) then
    let* googleAnalyticsId := getEnvVar env "REACT_APP_GOOGLE_ANALYTICS_ID" (Some "") in
    let* mixpanelToken := getEnvVar env "REACT_APP_MIXPANEL_TOKEN" (Some "") in
    Return (Some {| analytics_googleAnalyticsId := googleAnalyticsId;
                    analytics_mixpanelToken := mixpanelToken |})
  else Return None.

Definition config_assets (env : ProcessEnv) : Result Error (option AssetsSection) :=
  if truthy (or_else (env !! "REACT_APP_CDN_URL") (env !! "REACT_APP_ASSETS_URL")) then
    let* cdnUrl := getEnvVar env "REACT_APP_CDN_URL" (Some "") in
    let* assetsUrl := getEnvVar env "REACT_APP_ASSETS_URL" (Some "") in
    Return (Some {| assets_cdnUrl := cdnUrl; assets_assetsUrl := assetsUrl |})
  else Return None.

Definition config_social (env : ProcessEnv) : Result Error (option SocialSection) :=
  if truthy (or_else (or_else (env !! "REACT_APP_FACEBOOK_APP_ID")
                              (env !! "REACT_APP_GITHUB_CLIENT_ID"))
                     (env !! "REACT_APP_LINKEDIN_CLIENT_ID")) then
    let* facebookAppId := getEnvVar env "REACT_APP_FACEBOOK_APP_ID" (Some "") in
    let* githubClientId := getEnvVar env "REACT_APP_GITHUB_CLIENT_ID" (Some "") in
    let* linkedinClientId := getEnvVar env "REACT_APP_LINKEDIN_CLIENT_ID" (Some "") in
    Return (Some {| social_facebookAppId := facebookAppId;
                    social_githubClientId := githubClientId;
                    social_linkedinClientId := linkedinClientId |})
  else Return None.

Definition config_monitoring (env : ProcessEnv) : Result Error (option MonitoringSection) :=
  if truthy (or_else (env !! "REACT_APP_SENTRY_DSN") (env !! "REACT_APP_HOTJAR_ID")) then
    let* sentryDsn := getEnvVar env "REACT_APP_SENTRY_DSN" (Some "") in
    let* hotjarId := getEnvVar env "REACT_APP_HOTJAR_ID" (Some "") in
    Return (Some {| monitoring_sentryDsn := sentryDsn; monitoring_hotjarId := hotjarId |})
  else Return None.

Definition config (env : ProcessEnv) : Result Error AppConfig :=
  let* name := getEnvVar env "REACT_APP_APP_NAME" (Some "React App") in
  let* version := getEnvVar env "REACT_APP_VERSION" (Some "1.0.0") in
  let* environment := getEnvVar env "REACT_APP_ENVIRONMENT" (Some "development") in
  let* baseUrl := getEnvVar env "REACT_APP_API_BASE_URL" None in
  let timeout := parseNumber (env !! "REACT_APP_API_TIMEOUT") 10000 in
  let* apiVersion := getEnvVar env "REACT_APP_API_VERSION" (Some "v1") in
  let* auth := config_auth env in
  let* firebase := config_firebase env in
  let* analytics := config_analytics env in
  let features :=
    {| features_newUI := parseBoolean_default (env !! "REACT_APP_FEATURE_NEW_UI");
       features_betaAccess := parseBoolean_default (env !! "REACT_APP_FEATURE_BETA_ACCESS");
       features_debugMode := parseBoolean_default (env !! "REACT_APP_FEATURE_DEBUG_MODE") |} in
  let* assets := config_assets env in
  let* social := config_social env in
  let* monitoring := config_monitoring env in
  let development :=
    {| development_mockApi := parseBoolean_default (env !! "REACT_APP_MOCK_API");
       development_logLevel := or_string (env !! "REACT_APP_LOG_LEVEL") "info" |} in
  Return {| app := {| app_name := name; app_version := version;
                      app_environment := environment |};
            api := {| api_baseUrl := baseUrl; api_timeout := timeout;
                      api_version := apiVersion |};
            auth := auth; firebase := firebase; analytics := analytics;
            features := features; assets := assets; social := social;
            monitoring := monitoring; development := development |}.

(** The environment checks exported next to [config]. *)
Definition isDevelopment (c : AppConfig) : bool :=
  String.eqb (app_environment (app c)) "development".
Definition isStaging (c : AppConfig) : bool :=
  String.eqb (app_environment (app c)) "staging".
Definition isProduction (c : AppConfig) : bool :=
  String.eqb (app_environment (app c)) "production".

(** [validateConfig()], with the list of required names made explicit in
    [validateConfig_for] so that the enumeration of missing names can be
    stated for any list. *)
Definition requiredVars : list string := [ "REACT_APP_API_BASE_URL" ].

Definition missingVars (required : list string) (env : ProcessEnv) : list string :=
  List.filter (fun varName => negb (truthy (env !! varName))) required.

Definition missing_message (missing : list string) : string :=
  "Missing required environment variables: " +:+ join ", " missing +:+ LF +:+
  "Please check your .env file and ensure all required variables are set.".

Definition validateConfig_for (required : list string) (env : ProcessEnv)
  : Result Error unit :=
  let missing := missingVars required env in
  if (0 <? length missing)%nat
  then Throw (new_Error (missing_message missing))
  else Return tt.

Definition validateConfig (env : ProcessEnv) : Result Error unit :=
  validateConfig_for requiredVars env.

(** *** Notions used to state the properties of the loader *)

(** A variable is set when its value is a non-empty string, which is the
    test the loader applies everywhere. *)
Definition is_set (env : ProcessEnv) (key : string) : bool :=
  truthy (env !! key).

(** The value a field takes from its variable: the variable's value, or the
    empty string. *)
Definition value_of (env : ProcessEnv) (key : string) : string :=
  match env !! key with
  | Some v => v
  | None => ""
  end.

(** The sixteen spellings of the word [true] up to letter case. *)
Definition true_spellings : list string :=
  [ "true"; "truE"; "trUe"; "trUE"; "tRue"; "tRuE"; "tRUe"; "tRUE";
    "True"; "TruE"; "TrUe"; "TrUE"; "TRue"; "TRuE"; "TRUe"; "TRUE" ].

(** Decimal notation, independently of the loop of [parseInt]: a sign, and
    the positional value of a string of digits. *)
Inductive Sign : Type := NoSign | Plus | Minus.

Definition sign_text (sg : Sign) : string :=
  match sg with
  | NoSign => ""
  | Plus => "+"
  | Minus => "-"
  end.

Definition sign_factor (sg : Sign) : Z :=
  match sg with
  | Minus => -1
  | _ => 1
  end.

Fixpoint all_digits (s : string) : bool :=
  match s with
  | EmptyString => true
  | String c r => is_digit c && all_digits r
  end.

(** A run of white space: white space characters one after the other. *)
Inductive all_white_space : string -> Prop :=
| white_space_nil : all_white_space ""
| white_space_cons (w ws : string) :
    In w white_space_chars -> all_white_space ws -> all_white_space (w +:+ ws).

Fixpoint positional_value (s : string) : Z :=
  match s with
  | EmptyString => 0
  | String c r => digit_value c * 10 ^ Z.of_nat (String.length r) + positional_value r
  end.

(** A numeric string in the sense of the specification: an optional sign
    followed by one or more decimal digits and nothing else. *)
Definition is_integer_literal (s : string) : bool :=
  match s with
  | String "-" r | String "+" r => truthy_string r && all_digits r
  | _ => truthy_string s && all_digits s
  end.

(** The variables of the two groups whose fields are all required once the
    group is triggered. *)
Definition auth_vars : list string :=
  [ "REACT_APP_AUTH_DOMAIN"; "REACT_APP_CLIENT_ID"; "REACT_APP_REDIRECT_URI" ].

Definition firebase_vars : list string :=
  [ "REACT_APP_FIREBASE_API_KEY"; "REACT_APP_FIREBASE_AUTH_DOMAIN";
    "REACT_APP_FIREBASE_PROJECT_ID"; "REACT_APP_FIREBASE_STORAGE_BUCKET";
    "REACT_APP_FIREBASE_MESSAGING_SENDER_ID"; "REACT_APP_FIREBASE_APP_ID" ].

Definition analytics_vars : list string :=
  [ "REACT_APP_GOOGLE_ANALYTICS_ID"; "REACT_APP_MIXPANEL_TOKEN" ].
Definition assets_vars : list string :=
  [ "REACT_APP_CDN_URL"; "REACT_APP_ASSETS_URL" ].
Definition social_vars : list string :=
  [ "REACT_APP_FACEBOOK_APP_ID"; "REACT_APP_GITHUB_CLIENT_ID";
    "REACT_APP_LINKEDIN_CLIENT_ID" ].
Definition monitoring_vars : list string :=
  [ "REACT_APP_SENTRY_DSN"; "REACT_APP_HOTJAR_ID" ].

Definition all_set (env : ProcessEnv) (vars : list string) : bool :=
  forallb (is_set env) vars.
Definition none_set (env : ProcessEnv) (vars : list string) : bool :=
  forallb (fun k => negb (is_set env k)) vars.
Definition any_set (env : ProcessEnv) (vars : list string) : bool :=
  existsb (is_set env) vars.

(** The first variable of a list that is not set (the one the error message
    of [getEnvVar] names when the fields are read in that order). *)
Definition first_missing (vars : list string) (env : ProcessEnv) : string :=
  hd "" (missingVars vars env).

(** An environment in which only the API base URL and the Firebase API key
    are set. *)
Definition firebase_key_only : ProcessEnv :=
  {[ "REACT_APP_API_BASE_URL" := "https://api.example.com";
     "REACT_APP_FIREBASE_API_KEY" := "key" ]}.

End Env.

(** ** Development proxy (setupProxy.js) *)

Module Proxy.
Import JS.

(** [getTargetUrl()]. *)
Definition getTargetUrl (env : gmap string string) : string :=
  or_string (env !! "REACT_APP_API_BASE_URL") "http://localhost:5000".

(** The console: the lines written so far, oldest first. *)
Inductive Level : Type := LogInfo | LogWarn | LogError.

Abbreviation Console := (list (Level * string)).

(** [createLogger(prefix)]: each method appends one line. *)
Definition logger_line (prefix msg : string) : string :=
  "[" +:+ prefix +:+ "] " +:+ msg.

Definition logger_info (prefix msg : string) (out : Console) : Console :=
  out ++ [(LogInfo, logger_line prefix msg)].
Definition logger_warn (prefix msg : string) (out : Console) : Console :=
  out ++ [(LogWarn, logger_line prefix msg)].
Definition logger_error (prefix msg : string) (out : Console) : Console :=
  out ++ [(LogError, logger_line prefix msg)].

(** The server response handed to the hooks, by how far it has been
    written: nothing sent yet (only headers set), the head written and some of
    the body, or ended. *)
Inductive ServerResponse : Type :=
| HeadPending (headers : gmap string string)
| HeadWritten (statusCode : Z) (headers : gmap string string) (written : string)
| Ended (statusCode : Z) (headers : gmap string string) (written : string).

Definition fresh_response : ServerResponse := HeadPending empty.


(** The error [res.writeHead] throws once the head has been written. *)
Definition ERR_HTTP_HEADERS_SENT : Error :=
  {| name := "Error";
     message := "Cannot write headers after they are sent to the client" |}.

(** [res.writeHead(code, headers)]. *)
Definition writeHead (code : Z) (hs : gmap string string) (res : ServerResponse)
  : Result Error ServerResponse :=
  match res with
  | HeadPending headers => Return (HeadWritten code (hs ∪ headers) "")
  | _ => Throw ERR_HTTP_HEADERS_SENT
  end.

(** [res.end(chunk)]: an implicit head has status 200; a response that has
    ended ignores the call. *)
Definition end_with (chunk : string) (res : ServerResponse) : ServerResponse :=
  match res with
  | HeadPending headers => Ended 200 headers chunk
  | HeadWritten code headers written => Ended code headers (written +:+ chunk)
  | Ended _ _ _ => res
  end.

(** The [logLevel] option given to the middleware. *)
Definition logLevel (env : gmap string string) : string :=
  if strict_eq (env !! "NODE_ENV") "development" then "debug" else "warn".

(** The payload of the synthetic error response. *)
Definition error_payload (env : gmap string string) (err : Error) : JSON :=
  JObj [ ("error", JStr "Proxy Error");
         ("message", JStr (if strict_eq (env !! "NODE_ENV") "development"
                           then message err
                           else "Internal Server Error")) ].


(** The [onError] hook: one line is logged, then the head and the body are
    written; what [writeHead] throws leaves the hook. *)
Definition onError (env : gmap string string) (err : Error)
    (res : ServerResponse) (out : Console) : Result Error ServerResponse * Console :=
  let out1 := logger_error "Proxy" ("프록시 에러: " +:+ message err) out in
  match writeHead 500 {[ "Content-Type" := "application/json" ]} res with
  | Return res1 => (Return (end_with (stringify (error_payload env err)) res1), out1)
  | Throw e => (Throw e, out1)
  end.

(** The [onProxyReq] hook only logs, and only in development. *)
Definition onProxyReq (env : gmap string string) (method path : string)
    (out : Console) : Console :=
  if strict_eq (env !! "NODE_ENV") "development"
  then logger_info "Proxy"
         (method +:+ " " +:+ path +:+ " → " +:+ getTargetUrl env +:+ path) out
  else out.

(** The [onProxyRes] hook acts on the headers of the backend's response. *)
Definition onProxyRes (env : gmap string string) (method path : string)
    (statusCode : Z) (proxyHeaders : gmap string string) (out : Console)
  : gmap string string * Console :=
  let hs := <[ "Access-Control-Allow-Credentials" := "true" ]>
              (<[ "Access-Control-Allow-Origin" := "*" ]> proxyHeaders) in
  if strict_eq (env !! "NODE_ENV") "development"
  then (hs, logger_info "Proxy"
              (method +:+ " " +:+ path +:+ " ← " +:+ number_text statusCode) out)
  else (hs, out).

End Proxy.

(** ** API client (the fetch wrapper) *)

Module Client.
Import JS.

Record ApiConfig : Type := {
  baseURL : string;
  timeout : Z;
  headers : gmap string string }.

(** [getApiConfig()].  [toNumber] is the platform's [Number(...)] coercion of
    an optional string, with [None] for [NaN]; it only feeds the time-out. *)
Definition getApiConfig (toNumber : option string -> option Z)
    (env : gmap string string) : ApiConfig :=
  let isDevelopment := strict_eq (env !! "NODE_ENV") "development" in
  {| baseURL := if isDevelopment then ""
                else or_string (env !! "REACT_APP_API_BASE_URL") "";
     timeout := match toNumber (env !! "REACT_APP_API_TIMEOUT") with
                | Some n => if (n =? 0)%Z then 10000 else n
                | None => 10000
                end;
     headers := {[ "Content-Type" := "application/json";
                   "X-API-Version" := or_string (env !! "REACT_APP_API_VERSION") "v1" ]} |}.

(** [class ApiError extends Error]: [data] is [JNull] for [null]. *)
Record ApiError : Type := {
  status : Z;
  statusText : string;
  data : JSON }.

Definition ApiError_name : string := "ApiError".
Definition ApiError_message (e : ApiError) : string :=
  "API Error " +:+ number_text (status e) +:+ ": " +:+ statusText e.

(** What a [catch] clause of the client can receive, split the way the
    [instanceof] tests of the handler split it. *)
Inductive Thrown : Type :=
| ThrownApiError (e : ApiError)
| ThrownError (e : Error)
| ThrownOther (v : JSON).

(** [RequestInit] as [request] reads it: the method, the body and, in
    [init_headers], the properties that the spread of [options.headers]
    copies; absent [headers] contribute none.  [options_of] below gives them
    for each form the headers of a call can take. *)
Record RequestInit : Type := {
  method : option string;
  init_headers : gmap string string;
  body : option string }.

Definition no_options : RequestInit :=
  {| method := None; init_headers := ∅; body := None |}.

(** [HeadersInit]: the headers of the caller's options are a plain object,
    a [Headers] instance or an array of name and value pairs. *)
Inductive HeadersInit : Type :=
| PlainObject (entries : gmap string string)
| HeadersInstance (entries : list (string * string))
| PairList (pairs : list (string * string)).

(** The own enumerable properties that [{...h}] copies: every entry of a plain
    object; nothing of a [Headers] instance, which keeps its entries inside;
    the indices of an array, each holding a pair, which reads as the text
    [name,value] when it is used as a header value. *)
Definition spread_headers (h : option HeadersInit) : gmap string string :=
  match h with
  | None => ∅
  | Some (PlainObject entries) => entries
  | Some (HeadersInstance _) => ∅
  | Some (PairList pairs) =>
      list_to_map
        (imap (fun i p => (number_text (Z.of_nat i), fst p +:+ "," +:+ snd p)) pairs)
  end.

(** The options of a call as the call site writes them, and as [request]
    reads them. *)
Record CallOptions : Type := {
  call_method : option string;
  call_headers : option HeadersInit;
  call_body : option string }.

Definition options_of (o : CallOptions) : RequestInit :=
  {| method := call_method o;
     init_headers := spread_headers (call_headers o);
     body := call_body o |}.

(** The response object resolved by [fetch]; [json] is the outcome of its
    [json()] method. *)
Record Response : Type := {
  res_status : Z;
  res_statusText : string;
  json : Result Thrown JSON }.

(** [response.ok]: the status is in the range 200-299. *)
Definition ok (r : Response) : bool :=
  (200 <=? res_status r)%Z && (res_status r <=? 299)%Z.

(** How the awaited [fetch] settles: with a response, with a rejection of
    its own, or because the deadline timer ran first and aborted it. *)
Inductive FetchOutcome : Type :=
| Responds (r : Response)
| Rejects (e : Thrown)
| DeadlineElapses.

Abbreviation Network := (string -> RequestInit -> FetchOutcome).

Definition AbortError : Error :=
  {| name := "AbortError"; message := "The operation was aborted." |}.

(** The timer table of the event loop: pending timers with their delay. *)
Record Timers : Type := {
  pending : gmap nat Z;
  next_id : nat }.

Definition no_timers : Timers := {| pending := ∅; next_id := 0 |}.

Definition setTimeout (delay : Z) (w : Timers) : nat * Timers :=
  (next_id w, {| pending := <[ next_id w := delay ]> (pending w);
                 next_id := S (next_id w) |}).

Definition clearTimeout (id : nat) (w : Timers) : Timers :=
  {| pending := delete id (pending w); next_id := next_id w |}.

(** A timer that runs its callback leaves the table. *)
Definition timer_runs (id : nat) (w : Timers) : Timers :=
  {| pending := delete id (pending w); next_id := next_id w |}.

Definition armed (id : nat) (w : Timers) : bool :=
  bool_decide (is_Some (pending w !! id)).

Record ApiClient : Type := { config : ApiConfig }.

Definition new_ApiClient (toNumber : option string -> option Z)
    (env : gmap string string) : ApiClient :=
  {| config := getApiConfig toNumber env |}.

(** First part of [request]: the URL and the [RequestInit] given to [fetch]. *)
Definition request_url (this : ApiClient) (endpoint : string) : string :=
  baseURL (config this) +:+ endpoint.

Definition request_config (this : ApiClient) (localStorage : gmap string string)
    (options : RequestInit) : RequestInit :=
  let config0 :=
    {| method := method options;
       init_headers := init_headers options ∪ headers (config this);
       body := body options |} in
  let token := localStorage !! "authToken" in
  match token with
  | Some t =>
      if truthy_string t then
        {| method := method config0;
           init_headers := <[ "Authorization" := "Bearer " +:+ t ]> (init_headers config0);
           body := body config0 |}
      else config0
  | None => config0
  end.

(** [await response.json().catch(() => null)]. *)
Definition json_or_null (r : Response) : JSON :=
  match json r with
  | Return v => v
  | Throw _ => JNull
  end.

(** The [try] block. *)
Definition request_try (this : ApiClient) (net : Network) (url : string)
    (cfg : RequestInit) (w : Timers) : Result Thrown JSON * Timers :=
  let '(timeoutId, w1) := setTimeout (timeout (config this)) w in
  match net url cfg with
  | Responds response =>
      let w2 := clearTimeout timeoutId w1 in
      if negb (ok response) then
        (Throw (ThrownApiError {| status := res_status response;
                                  statusText := res_statusText response;
                                  data := json_or_null response |}), w2)
      else if (res_status response =? 204)%Z then (Return (JObj []), w2)
      else (json response, w2)
  | Rejects e => (Throw e, w1)
  | DeadlineElapses => (Throw (ThrownError AbortError), timer_runs timeoutId w1)
  end.

(** The [catch] clause: every path of it throws an [ApiError]. *)
Definition request_catch (error : Thrown) : ApiError :=
  match error with
  | ThrownApiError e => e
  | ThrownError e =>
      if String.eqb (name e) "AbortError"
      then {| status := 408; statusText := "Request Timeout"; data := JNull |}
      else {| status := 0; statusText := message e; data := JNull |}
  | ThrownOther _ => {| status := 0; statusText := "Unknown Error"; data := JNull |}
  end.

(** [ApiClient.request]. *)
Definition request (this : ApiClient) (localStorage : gmap string string)
    (net : Network) (endpoint : string) (options : RequestInit) (w : Timers)
  : Result ApiError JSON * Timers :=
  let url := request_url this endpoint in
  let cfg := request_config this localStorage options in
  match request_try this net url cfg w with
  | (Return v, w') => (Return v, w')
  | (Throw error, w') => (Throw (request_catch error), w')
  end.

(** The verbs. *)
Definition with_method (m : string) (options : RequestInit) : RequestInit :=
  {| method := Some m; init_headers := init_headers options; body := body options |}.

Definition with_body (m : string) (payload : option JSON) (options : RequestInit)
  : RequestInit :=
  {| method := Some m; init_headers := init_headers options;
     body := stringify <$> payload |}.

Definition get this localStorage net endpoint options :=
  request this localStorage net endpoint (with_method "GET" options).
Definition post this localStorage net endpoint payload options :=
  request this localStorage net endpoint (with_body "POST" payload options).
Definition put this localStorage net endpoint payload options :=
  request this localStorage net endpoint (with_body "PUT" payload options).
Definition patch this localStorage net endpoint payload options :=
  request this localStorage net endpoint (with_body "PATCH" payload options).
Definition delete_ this localStorage net endpoint options :=
  request this localStorage net endpoint (with_method "DELETE" options).

(** *** Two networks used in the examples *)

(** The backend cannot be reached: [fetch] rejects with a [TypeError]. *)
Definition network_down : Network :=
  fun _ _ => Rejects (ThrownError {| name := "TypeError"; message := "Failed to fetch" |}).

(** The backend answers 404 with a JSON error body. *)
Definition not_found_network : Network :=
  fun _ _ => Responds {| res_status := 404; res_statusText := "Not Found";
                         json := Return (JObj [ ("message", JStr "not found") ]) |}.


(** The timer of a call is the one [setTimeout] allocates on entry. *)
Definition timer_of (w : Timers) : nat := next_id w.

End Client.

(** * Properties *)

(** ** Strict equality with a literal *)

Module JSFacts.
Import JS.

Lemma strict_eq_true (v : option string) (lit : string) :
  strict_eq v lit = true <-> v = Some lit.
Proof.
  unfold strict_eq. destruct v as [s|].
  - rewrite String.eqb_eq. split; congruence.
  - split; discriminate.
Qed.

Lemma strict_eq_false (v : option string) (lit : string) :
  strict_eq v lit = false <-> v <> Some lit.
Proof.
  rewrite <- strict_eq_true. destruct (strict_eq v lit); split; congruence.
Qed.

End JSFacts.

(** ** The configuration loader *)

Module EnvCorrect.
Import JS Env.

(** *** [parseBoolean] *)

Ltac ascii_cases c :=
  destruct c as [[] [] [] [] [] [] [] []].

Lemma lower_ascii_t (c : ascii) :
  Ascii.eqb (lower_ascii c) "t" = Ascii.eqb c "t" || Ascii.eqb c "T".
Proof. ascii_cases c; reflexivity. Qed.

Lemma lower_ascii_r (c : ascii) :
  Ascii.eqb (lower_ascii c) "r" = Ascii.eqb c "r" || Ascii.eqb c "R".
Proof. ascii_cases c; reflexivity. Qed.

Lemma lower_ascii_u (c : ascii) :
  Ascii.eqb (lower_ascii c) "u" = Ascii.eqb c "u" || Ascii.eqb c "U".
Proof. ascii_cases c; reflexivity. Qed.

Lemma lower_ascii_e (c : ascii) :
  Ascii.eqb (lower_ascii c) "e" = Ascii.eqb c "e" || Ascii.eqb c "E".
Proof. ascii_cases c; reflexivity. Qed.

Ltac split_letters :=
  repeat match goal with
         | |- context [Ascii.eqb ?c ?l] =>
             is_var c;
             let E := fresh "E" in
             destruct (Ascii.eqb c l) eqn:E;
             [apply Ascii.eqb_eq in E; subst c; cbn | cbn]
         end.

Lemma toLowerCase_is_true (s : string) :
  String.eqb (toLowerCase s) "true" = existsb (String.eqb s) true_spellings.
Proof.
  destruct s as [|c1 [|c2 [|c3 [|c4 [|c5 s]]]]]; cbn [toLowerCase].
  all: cbn [String.eqb existsb true_spellings].
  all: rewrite ?lower_ascii_t, ?lower_ascii_r, ?lower_ascii_u, ?lower_ascii_e.
  all: split_letters; reflexivity.
Qed.

(** C6 (as the code has it): an absent or empty value yields the fallback;
    any other value yields [true] when it is one of the sixteen spellings of
    the word true and [false] otherwise, whatever the fallback. *)
Theorem parseBoolean_spec (fallback : bool) (c : ascii) (s : string) :
  parseBoolean None fallback = fallback /\
  parseBoolean (Some "") fallback = fallback /\
  parseBoolean (Some (String c s)) fallback
    = existsb (String.eqb (String c s)) true_spellings.
Proof.
  repeat split. unfold parseBoolean. cbn [truthy_string].
  apply toLowerCase_is_true.
Qed.

(** C6 (as stated) fails: with the fallback [true], the value [no], which is
    not a spelling of true, yields [false] and not the fallback. *)
Lemma parseBoolean_other_string_ignores_fallback :
  existsb (String.eqb "no") true_spellings = false /\
  parseBoolean (Some "no") true = false /\
  parseBoolean (Some "no") true <> true.
Proof. repeat split. discriminate. Qed.

(** The three spellings the specification lists. *)
Example parseBoolean_TRUE :
  parseBoolean_default (Some "TRUE") = true /\
  parseBoolean_default (Some "true") = true /\
  parseBoolean_default (Some "True") = true.
Proof. repeat split. Qed.

(** *** [parseNumber] *)

Lemma append_nil (b : string) : "" +:+ b = b.
Proof. reflexivity. Qed.

Lemma append_cons (c : ascii) (a b : string) :
  String c a +:+ b = String c (a +:+ b).
Proof. reflexivity. Qed.

Lemma append_assoc (a b c : string) : (a +:+ b) +:+ c = a +:+ (b +:+ c).
Proof.
  induction a as [|ch a IH]; [reflexivity|]. rewrite !append_cons, IH. reflexivity.
Qed.

Ltac norm_append := rewrite ?append_cons, ?append_nil in *.

Lemma is_white_space_In (w : string) :
  is_white_space w = true <-> In w white_space_chars.
Proof.
  unfold is_white_space. rewrite existsb_exists. split.
  - intros (x & Hx & Heq). apply String.eqb_eq in Heq. now subst.
  - intros Hw. exists w. split; [assumption | apply String.eqb_refl].
Qed.

(** Each white space character is skipped as one unit. *)
Lemma skip_white_space_char (w s : string) :
  In w white_space_chars -> skip_white_space (w +:+ s) = skip_white_space s.
Proof.
  unfold white_space_chars, white_space_code_points. cbn [map In].
  intros H.
  repeat (destruct H as [H|H];
          [subst w;
           match goal with
           | |- context [utf8 ?n] =>
               let v := eval vm_compute in (utf8 n) in change (utf8 n) with v
           end; rewrite ?append_cons, ?append_nil; reflexivity|]).
  destruct H.
Qed.

Lemma skip_white_space_app (ws s : string) :
  all_white_space ws -> skip_white_space (ws +:+ s) = skip_white_space s.
Proof.
  induction 1 as [|w ws Hw Hws IH]; [reflexivity|].
  rewrite append_assoc, skip_white_space_char by assumption. exact IH.
Qed.

(** A digit or a sign starts no white space character. *)
Lemma skip_white_space_stop (c : ascii) (r : string) :
  is_digit c = true \/ c = "-"%char \/ c = "+"%char ->
  skip_white_space (String c r) = String c r.
Proof.
  intros H.
  assert (Hc : In c [ "0"; "1"; "2"; "3"; "4"; "5"; "6"; "7"; "8"; "9"; "-"; "+" ]%char).
  { destruct H as [H|[->| ->]]; [|cbn; tauto ..].
    revert H. ascii_cases c; vm_compute; intros H; try discriminate H; tauto. }
  cbn [In] in Hc.
  repeat (destruct Hc as [<-|Hc]; [destruct r as [|d [|e r3]]; reflexivity|]).
  destruct Hc.
Qed.

Lemma skip_white_space_split (s : string) :
  exists ws, all_white_space ws /\ s = ws +:+ skip_white_space s.
Proof.
  assert (H : forall n s, (String.length s <= n)%nat ->
                          exists ws, all_white_space ws /\ s = ws +:+ skip_white_space s).
  { clear s. induction n as [|n IH]; intros s Hlen.
    - destruct s; [|cbn in Hlen; lia]. exists "". split; [constructor | reflexivity].
    - destruct s as [|c r]; [exists ""; split; [constructor | reflexivity]|].
      cbn [String.length] in Hlen. cbn [skip_white_space].
      destruct (is_white_space (String c "")) eqn:H1.
      { destruct (IH r ltac:(lia)) as (ws & Hws & Hr).
        exists (String c "" +:+ ws). split.
        - constructor; [now apply is_white_space_In | assumption].
        - rewrite append_assoc, <- Hr. reflexivity. }
      destruct r as [|d r2]; [exists ""; split; [constructor | reflexivity]|].
      cbn [String.length] in Hlen.
      destruct (is_white_space (String c (String d ""))) eqn:H2.
      { destruct (IH r2 ltac:(lia)) as (ws & Hws & Hr).
        exists (String c (String d "") +:+ ws). split.
        - constructor; [now apply is_white_space_In | assumption].
        - rewrite append_assoc, <- Hr. reflexivity. }
      destruct r2 as [|e r3]; [exists ""; split; [constructor | reflexivity]|].
      cbn [String.length] in Hlen.
      destruct (is_white_space (String c (String d (String e "")))) eqn:H3.
      { destruct (IH r3 ltac:(lia)) as (ws & Hws & Hr).
        exists (String c (String d (String e "")) +:+ ws). split.
        - constructor; [now apply is_white_space_In | assumption].
        - rewrite append_assoc, <- Hr. reflexivity. }
      exists "". split; [constructor | reflexivity]. }
  exact (H (String.length s) s (le_n _)).
Qed.

Lemma read_digits_stop (acc : Z) (rest : string) :
  starts_with_digit rest = false -> read_digits acc rest = acc.
Proof.
  destruct rest as [|c r]; cbn [starts_with_digit read_digits]; [reflexivity|].
  now intros ->.
Qed.

Lemma read_digits_app (ds rest : string) :
  all_digits ds = true -> starts_with_digit rest = false ->
  forall acc,
    read_digits acc (ds +:+ rest)
    = (acc * 10 ^ Z.of_nat (String.length ds) + positional_value ds)%Z.
Proof.
  intros Hds Hrest. induction ds as [|c ds IH]; intros acc.
  - norm_append; cbn [String.length positional_value].
    rewrite read_digits_stop by assumption. change (10 ^ Z.of_nat 0)%Z with 1%Z. lia.
  - cbn [all_digits] in Hds. apply andb_true_iff in Hds as [Hc Hds].
    norm_append; cbn [read_digits String.length positional_value].
    rewrite Hc, IH by assumption.
    rewrite Nat2Z.inj_succ, Z.pow_succ_r by lia. ring.
Qed.

Lemma parseNumber_Some (s : string) (fallback : JSNumber) :
  parseNumber (Some s) fallback
  = match parseInt10 s with Some parsed => parsed | None => fallback end.
Proof. destruct s; reflexivity. Qed.

Lemma parseInt10_value (ws ds rest : string) (sg : Sign) :
  all_white_space ws -> all_digits ds = true -> ds <> "" ->
  starts_with_digit rest = false ->
  parseInt10 (ws +:+ sign_text sg +:+ ds +:+ rest)
  = Some (number_value (sign_factor sg * positional_value ds)).
Proof.
  intros Hws Hds Hne Hrest. unfold parseInt10.
  rewrite skip_white_space_app by assumption.
  destruct ds as [|d ds]; [congruence|].
  pose proof Hds as Hd. cbn [all_digits] in Hd. apply andb_true_iff in Hd as [Hd _].
  assert (Hu : starts_with_digit (String d ds +:+ rest) = true) by exact Hd.
  assert (Hv : read_digits 0 (String d ds +:+ rest) = positional_value (String d ds)).
  { rewrite read_digits_app by assumption. lia. }
  destruct sg; cbn [sign_text sign_factor]; norm_append.
  - rewrite skip_white_space_stop by (left; exact Hd).
    assert (Hm : d <> "-"%char /\ d <> "+"%char).
    { clear -Hd. revert Hd. ascii_cases d; vm_compute; intros; split; congruence. }
    destruct Hm as [Hm Hp].
    assert (Hsel : forall (A : Type) (x y z : A),
               match d with
               | "-"%char => x | "+"%char => y | _ => z
               end = z).
    { clear -Hm Hp. intros A x y z. ascii_cases d; try reflexivity; congruence. }
    rewrite Hsel. cbn [starts_with_digit]. rewrite Hd. now rewrite Hv.
  - rewrite skip_white_space_stop by (right; right; reflexivity).
    rewrite Hu. now rewrite Hv.
  - rewrite skip_white_space_stop by (right; left; reflexivity).
    rewrite Hu. now rewrite Hv.
Qed.

Lemma parseInt10_shape (s : string) (z : JSNumber) :
  parseInt10 s = Some z ->
  exists ws sg ds rest,
    all_white_space ws /\ all_digits ds = true /\ ds <> "" /\
    s = ws +:+ sign_text sg +:+ ds +:+ rest.
Proof.
  unfold parseInt10. destruct (skip_white_space_split s) as (ws & Hws & Hs).
  intros H.
  assert (Hcase : exists sg u, skip_white_space s = sign_text sg +:+ u /\
                               starts_with_digit u = true).
  { destruct (skip_white_space s) as [|c r] eqn:Et.
    - cbn in H. discriminate.
    - destruct (Ascii.ascii_dec c "-") as [->|Hm].
      + exists Minus, r. split; [reflexivity|].
        cbn in H. destruct (starts_with_digit r); [reflexivity|discriminate].
      + destruct (Ascii.ascii_dec c "+") as [->|Hp].
        * exists Plus, r. split; [reflexivity|].
          cbn in H. destruct (starts_with_digit r); [reflexivity|discriminate].
        * exists NoSign, (String c r). split; [reflexivity|].
          assert (Hsel : forall (A : Type) (x y z : A),
                     match c with
                     | "-"%char => x | "+"%char => y | _ => z
                     end = z).
          { clear -Hm Hp. intros A x y z0. ascii_cases c; try reflexivity; congruence. }
          rewrite Hsel in H.
          destruct (starts_with_digit (String c r)); [reflexivity|discriminate]. }
  destruct Hcase as (sg & u & Hu & Hdig).
  destruct u as [|d rest]; [discriminate|]. cbn in Hdig.
  exists ws, sg, (String d ""), rest. repeat split.
  - assumption.
  - cbn. now rewrite Hdig.
  - discriminate.
  - rewrite Hs at 1. now rewrite Hu.
Qed.

Lemma positional_value_nonneg (ds : string) :
  all_digits ds = true -> (0 <= positional_value ds)%Z.
Proof.
  induction ds as [|c ds IH]; cbn [all_digits positional_value]; [lia|].
  intros [Hc Hds]%andb_true_iff.
  assert (0 <= digit_value c)%Z.
  { unfold is_digit in Hc. apply andb_true_iff in Hc as [Hlo _].
    apply Nat.leb_le in Hlo. unfold digit_value. lia. }
  specialize (IH Hds). assert (0 <= 10 ^ Z.of_nat (String.length ds))%Z by lia. nia.
Qed.

Lemma number_value_signed (sg : Sign) (v : Z) :
  (0 <= v)%Z ->
  number_value (sign_factor sg * v)
  = if (v <=? 2 ^ 53)%Z then Exact (sign_factor sg * v) else Approx (sign_factor sg * v).
Proof.
  intros Hv. unfold number_value.
  replace (Z.abs (sign_factor sg * v)) with v; [reflexivity|].
  destruct sg; cbn [sign_factor]; lia.
Qed.

(** C8 (as the code has it): [parseNumber] never throws (it is a total
    function); it yields the fallback for an absent or empty value and for a
    value that is not white space (characters of one to three bytes), an
    optional sign and at least one decimal digit followed by anything; for a
    value of that shape it yields the number of the signed integer that the
    whole run of digits denotes and ignores what follows the run: that
    integer itself up to 2^53, and beyond it the double the platform computes
    for it. *)
Theorem parseNumber_spec (fallback : JSNumber) :
  parseNumber None fallback = fallback /\
  parseNumber (Some "") fallback = fallback /\
  (forall s,
      (forall ws sg ds rest,
          all_white_space ws -> all_digits ds = true -> ds <> "" ->
          s <> ws +:+ sign_text sg +:+ ds +:+ rest) ->
      parseNumber (Some s) fallback = fallback) /\
  (forall ws sg ds rest,
      all_white_space ws -> all_digits ds = true -> ds <> "" ->
      starts_with_digit rest = false ->
      ((positional_value ds <= 2 ^ 53)%Z ->
       parseNumber (Some (ws +:+ sign_text sg +:+ ds +:+ rest)) fallback
       = Exact (sign_factor sg * positional_value ds)) /\
      ((2 ^ 53 < positional_value ds)%Z ->
       parseNumber (Some (ws +:+ sign_text sg +:+ ds +:+ rest)) fallback
       = Approx (sign_factor sg * positional_value ds))).
Proof.
  split; [reflexivity|]. split; [reflexivity|]. split.
  - intros s Hshape. rewrite parseNumber_Some.
    destruct (parseInt10 s) as [z|] eqn:E; [|reflexivity].
    destruct (parseInt10_shape s z E) as (ws & sg & ds & rest & Hws & Hds & Hne & Hs).
    exfalso. exact (Hshape ws sg ds rest Hws Hds Hne Hs).
  - intros ws sg ds rest Hws Hds Hne Hrest.
    rewrite parseNumber_Some, parseInt10_value by assumption.
    rewrite number_value_signed by (apply positional_value_nonneg; assumption).
    split; intros Hsize.
    + apply Z.leb_le in Hsize. now rewrite Hsize.
    + apply Z.leb_gt in Hsize. now rewrite Hsize.
Qed.

(** [parseNumber_spec] at a value without digits, at a value with white
    space of several bytes, a sign and a unit, and at a run beyond 2^53. *)
Lemma parseNumber_spec_witness :
  parseNumber (Some "abc") 10000 = 10000 /\
  parseNumber (Some (utf8 160 +:+ utf8 65279 +:+ " -42px")) 10000 = (-42)%Z /\
  parseNumber (Some "9007199254740993") 10000 = Approx 9007199254740993.
Proof.
  destruct (parseNumber_spec 10000) as (_ & _ & Hnan & Hval). split; [|split].
  - apply Hnan. intros ws sg ds rest Hws Hds Hne Heq.
    destruct Hws as [|w ws Hw Hws].
    + destruct sg; cbn [sign_text] in Heq; norm_append; try discriminate.
      destruct ds as [|d ds]; [congruence|]. norm_append.
      injection Heq as <- _. discriminate.
    + unfold white_space_chars, white_space_code_points in Hw. cbn [map In] in Hw.
      repeat (destruct Hw as [<-|Hw]; [vm_compute in Heq; discriminate|]).
      destruct Hw.
  - assert (Hws : all_white_space (utf8 160 +:+ utf8 65279 +:+ " ")).
    { repeat (constructor; [vm_compute; tauto|]).
      change " " with (" " +:+ ""). constructor; [vm_compute; tauto | constructor]. }
    destruct (Hval (utf8 160 +:+ utf8 65279 +:+ " ") Minus "42" "px" Hws eq_refl
                ltac:(discriminate) eq_refl) as [Hexact _].
    apply Hexact. vm_compute. discriminate.
  - destruct (Hval "" NoSign "9007199254740993" "" ltac:(constructor) eq_refl
                ltac:(discriminate) eq_refl) as [_ Happrox].
    apply Happrox. vm_compute. reflexivity.
Defined.

(** C8 (as stated) fails: [12abc] is not a numeric string, yet the result
    is 12 and not the fallback. *)
Lemma parseNumber_reads_numeric_prefix :
  is_integer_literal "12abc" = false /\
  parseNumber (Some "12abc") 10000 = 12%Z /\
  parseNumber (Some "12abc") 10000 <> 10000%Z.
Proof. repeat split. discriminate. Qed.

(** *** [getEnvVar] and the [config] object *)

Lemma truthy_value_of (env : ProcessEnv) (key : string) :
  truthy (env !! key) = true ->
  or_string (env !! key) "" = value_of env key.
Proof.
  unfold value_of, or_string, truthy. destruct (env !! key) as [v|]; [|discriminate].
  now intros ->.
Qed.

(** Without a fallback, and with the empty string as fallback, the variable
    is required. *)
Lemma getEnvVar_required (env : ProcessEnv) (key : string) (fallback : option string) :
  truthy fallback = false ->
  getEnvVar env key fallback
  = if is_set env key then Return (value_of env key)
    else Throw (new_Error (required_message key)).
Proof.
  intros Hfb. unfold getEnvVar, is_set, or_else. rewrite Hfb.
  destruct (truthy (env !! key)) eqn:Hv; cbn [negb andb]; [|reflexivity].
  now rewrite truthy_value_of.
Qed.

(** With a non-empty fallback the call always returns. *)
Lemma getEnvVar_fallback (env : ProcessEnv) (key : string) (c : ascii) (fb : string) :
  getEnvVar env key (Some (String c fb))
  = Return (if is_set env key then value_of env key else String c fb).
Proof.
  unfold getEnvVar, is_set, or_else.
  destruct (truthy (env !! key)) eqn:Hv; cbn [negb andb truthy truthy_string].
  - now rewrite truthy_value_of.
  - reflexivity.
Qed.

Lemma truthy_or_else (a b : option string) :
  truthy (or_else a b) = truthy a || truthy b.
Proof. unfold or_else. destruct (truthy a) eqn:E; [exact E | reflexivity]. Qed.

Ltac required_reads :=
  rewrite ?truthy_or_else;
  rewrite ?(fun env key => getEnvVar_required env key None eq_refl),
          ?(fun env key => getEnvVar_required env key (Some "") eq_refl).

Ltac split_is_set :=
  unfold all_set, any_set, first_missing, missingVars, is_set;
  cbn [forallb existsb List.filter hd];
  repeat match goal with
         | |- context [truthy (?env !! ?k)] =>
             destruct (truthy (env !! k)) eqn:?;
             cbn [bind negb andb orb or_else truthy List.filter hd]
         end.

Lemma config_auth_spec (env : ProcessEnv) :
  config_auth env =
  if is_set env "REACT_APP_AUTH_DOMAIN" then
    if all_set env auth_vars then
      Return (Some {| auth_domain := value_of env "REACT_APP_AUTH_DOMAIN";
                      auth_clientId := value_of env "REACT_APP_CLIENT_ID";
                      auth_redirectUri := value_of env "REACT_APP_REDIRECT_URI" |})
    else Throw (new_Error (required_message (first_missing auth_vars env)))
  else Return None.
Proof.
  unfold config_auth, auth_vars. required_reads.
  split_is_set; reflexivity.
Qed.

Lemma config_firebase_spec (env : ProcessEnv) :
  config_firebase env =
  if is_set env "REACT_APP_FIREBASE_API_KEY" then
    if all_set env firebase_vars then
      Return (Some {| firebase_apiKey := value_of env "REACT_APP_FIREBASE_API_KEY";
                      firebase_authDomain := value_of env "REACT_APP_FIREBASE_AUTH_DOMAIN";
                      firebase_projectId := value_of env "REACT_APP_FIREBASE_PROJECT_ID";
                      firebase_storageBucket :=
                        value_of env "REACT_APP_FIREBASE_STORAGE_BUCKET";
                      firebase_messagingSenderId :=
                        value_of env "REACT_APP_FIREBASE_MESSAGING_SENDER_ID";
                      firebase_appId := value_of env "REACT_APP_FIREBASE_APP_ID" |})
    else Throw (new_Error (required_message (first_missing firebase_vars env)))
  else Return None.
Proof.
  unfold config_firebase, firebase_vars. required_reads.
  split_is_set; reflexivity.
Qed.

Lemma config_analytics_spec (env : ProcessEnv) :
  config_analytics env =
  if any_set env analytics_vars then
    if all_set env analytics_vars then
      Return (Some {| analytics_googleAnalyticsId :=
                        value_of env "REACT_APP_GOOGLE_ANALYTICS_ID";
                      analytics_mixpanelToken := value_of env "REACT_APP_MIXPANEL_TOKEN" |})
    else Throw (new_Error (required_message (first_missing analytics_vars env)))
  else Return None.
Proof.
  unfold config_analytics, analytics_vars. required_reads.
  split_is_set; reflexivity.
Qed.

Lemma config_assets_spec (env : ProcessEnv) :
  config_assets env =
  if any_set env assets_vars then
    if all_set env assets_vars then
      Return (Some {| assets_cdnUrl := value_of env "REACT_APP_CDN_URL";
                      assets_assetsUrl := value_of env "REACT_APP_ASSETS_URL" |})
    else Throw (new_Error (required_message (first_missing assets_vars env)))
  else Return None.
Proof.
  unfold config_assets, assets_vars. required_reads.
  split_is_set; reflexivity.
Qed.

Lemma config_social_spec (env : ProcessEnv) :
  config_social env =
  if any_set env social_vars then
    if all_set env social_vars then
      Return (Some {| social_facebookAppId := value_of env "REACT_APP_FACEBOOK_APP_ID";
                      social_githubClientId := value_of env "REACT_APP_GITHUB_CLIENT_ID";
                      social_linkedinClientId :=
                        value_of env "REACT_APP_LINKEDIN_CLIENT_ID" |})
    else Throw (new_Error (required_message (first_missing social_vars env)))
  else Return None.
Proof.
  unfold config_social, social_vars. required_reads.
  split_is_set; reflexivity.
Qed.

Lemma config_monitoring_spec (env : ProcessEnv) :
  config_monitoring env =
  if any_set env monitoring_vars then
    if all_set env monitoring_vars then
      Return (Some {| monitoring_sentryDsn := value_of env "REACT_APP_SENTRY_DSN";
                      monitoring_hotjarId := value_of env "REACT_APP_HOTJAR_ID" |})
    else Throw (new_Error (required_message (first_missing monitoring_vars env)))
  else Return None.
Proof.
  unfold config_monitoring, monitoring_vars. required_reads.
  split_is_set; reflexivity.
Qed.

(** The object literal as a whole: it is built exactly when the base URL
    is read and the six groups are built, and then holds what they returned. *)
Lemma config_Return (env : ProcessEnv) (c : AppConfig) :
  config env = Return c <->
  is_set env "REACT_APP_API_BASE_URL" = true /\
  api_baseUrl (api c) = value_of env "REACT_APP_API_BASE_URL" /\
  api_timeout (api c) = parseNumber (env !! "REACT_APP_API_TIMEOUT") 10000 /\
  config_auth env = Return (auth c) /\
  config_firebase env = Return (firebase c) /\
  config_analytics env = Return (analytics c) /\
  config_assets env = Return (assets c) /\
  config_social env = Return (social c) /\
  config_monitoring env = Return (monitoring c) /\
  c = {| app := {| app_name := if is_set env "REACT_APP_APP_NAME"
                               then value_of env "REACT_APP_APP_NAME" else "React App";
                   app_version := if is_set env "REACT_APP_VERSION"
                                  then value_of env "REACT_APP_VERSION" else "1.0.0";
                   app_environment := if is_set env "REACT_APP_ENVIRONMENT"
                                      then value_of env "REACT_APP_ENVIRONMENT"
                                      else "development" |};
         api := {| api_baseUrl := value_of env "REACT_APP_API_BASE_URL";
                   api_timeout := parseNumber (env !! "REACT_APP_API_TIMEOUT") 10000;
                   api_version := if is_set env "REACT_APP_API_VERSION"
                                  then value_of env "REACT_APP_API_VERSION" else "v1" |};
         auth := auth c; firebase := firebase c; analytics := analytics c;
         features :=
           {| features_newUI := parseBoolean_default (env !! "REACT_APP_FEATURE_NEW_UI");
              features_betaAccess :=
                parseBoolean_default (env !! "REACT_APP_FEATURE_BETA_ACCESS");
              features_debugMode :=
                parseBoolean_default (env !! "REACT_APP_FEATURE_DEBUG_MODE") |};
         assets := assets c; social := social c; monitoring := monitoring c;
         development :=
           {| development_mockApi := parseBoolean_default (env !! "REACT_APP_MOCK_API");
              development_logLevel := or_string (env !! "REACT_APP_LOG_LEVEL") "info" |} |}.
Proof.
  unfold config. rewrite !getEnvVar_fallback.
  rewrite (getEnvVar_required env "REACT_APP_API_BASE_URL" None eq_refl).
  cbn [bind].
  destruct (is_set env "REACT_APP_API_BASE_URL");
    [|split; [discriminate | intros (? & _); discriminate]].
  destruct (config_auth env) as [a|]; cbn [bind];
    [|split; [discriminate | intros (_ & _ & _ & ? & _); discriminate]].
  destruct (config_firebase env) as [f|]; cbn [bind];
    [|split; [discriminate | intros (_ & _ & _ & _ & ? & _); discriminate]].
  destruct (config_analytics env) as [g|]; cbn [bind];
    [|split; [discriminate | intros (_ & _ & _ & _ & _ & ? & _); discriminate]].
  destruct (config_assets env) as [h|]; cbn [bind];
    [|split; [discriminate | intros (_ & _ & _ & _ & _ & _ & ? & _); discriminate]].
  destruct (config_social env) as [i|]; cbn [bind];
    [|split; [discriminate | intros (_ & _ & _ & _ & _ & _ & _ & ? & _); discriminate]].
  destruct (config_monitoring env) as [j|]; cbn [bind];
    [|split; [discriminate | intros (_ & _ & _ & _ & _ & _ & _ & _ & ? & _); discriminate]].
  split.
  - intros [= <-]. cbn. repeat split; reflexivity.
  - intros (_ & _ & _ & [= <-] & [= <-] & [= <-] & [= <-] & [= <-] & [= <-] & ->).
    reflexivity.
Qed.

Lemma all_set_In (env : ProcessEnv) (vars : list string) (k : string) :
  all_set env vars = true -> In k vars -> is_set env k = true.
Proof. unfold all_set. rewrite forallb_forall. auto. Qed.

Lemma none_set_In (env : ProcessEnv) (vars : list string) (k : string) :
  none_set env vars = true -> In k vars -> is_set env k = false.
Proof.
  unfold none_set. rewrite forallb_forall. intros H Hk.
  apply negb_true_iff. auto.
Qed.

Lemma none_set_any_set (env : ProcessEnv) (vars : list string) :
  none_set env vars = true -> any_set env vars = false.
Proof.
  unfold none_set, any_set. induction vars as [|k vars IH]; cbn [forallb existsb].
  - reflexivity.
  - intros [Hk Hvars]%andb_true_iff. apply negb_true_iff in Hk.
    rewrite Hk, IH by assumption. reflexivity.
Qed.

Lemma all_set_any_set (env : ProcessEnv) (k : string) (vars : list string) :
  all_set env (k :: vars) = true -> any_set env (k :: vars) = true.
Proof.
  unfold all_set, any_set. cbn [forallb existsb].
  intros [-> _]%andb_true_iff. reflexivity.
Qed.

Lemma config_returns (env : ProcessEnv) :
  is_set env "REACT_APP_API_BASE_URL" = true ->
  Forall (fun vars => all_set env vars = true \/ none_set env vars = true)
         [ auth_vars; firebase_vars; analytics_vars; assets_vars; social_vars;
           monitoring_vars ] ->
  exists c, config env = Return c.
Proof.
  intros Hbase Hgroups. rewrite !Forall_cons in Hgroups.
  destruct Hgroups as (Ha & Hf & Hg & Hh & Hi & Hj & _).
  assert (Ea : exists a, config_auth env = Return a).
  { rewrite config_auth_spec. destruct Ha as [Ha|Ha].
    - rewrite (all_set_In _ _ _ Ha (or_introl eq_refl)), Ha. eauto.
    - rewrite (none_set_In _ _ _ Ha (or_introl eq_refl)). eauto. }
  assert (Ef : exists f, config_firebase env = Return f).
  { rewrite config_firebase_spec. destruct Hf as [Hf|Hf].
    - rewrite (all_set_In _ _ _ Hf (or_introl eq_refl)), Hf. eauto.
    - rewrite (none_set_In _ _ _ Hf (or_introl eq_refl)). eauto. }
  assert (Eg : exists g, config_analytics env = Return g).
  { rewrite config_analytics_spec. destruct Hg as [Hg|Hg].
    - rewrite (all_set_any_set env _ _ Hg : any_set env analytics_vars = true), Hg. eauto.
    - rewrite (none_set_any_set _ _ Hg). eauto. }
  assert (Eh : exists h, config_assets env = Return h).
  { rewrite config_assets_spec. destruct Hh as [Hh|Hh].
    - rewrite (all_set_any_set env _ _ Hh : any_set env assets_vars = true), Hh. eauto.
    - rewrite (none_set_any_set _ _ Hh). eauto. }
  assert (Ei : exists i, config_social env = Return i).
  { rewrite config_social_spec. destruct Hi as [Hi|Hi].
    - rewrite (all_set_any_set env _ _ Hi : any_set env social_vars = true), Hi. eauto.
    - rewrite (none_set_any_set _ _ Hi). eauto. }
  assert (Ej : exists j, config_monitoring env = Return j).
  { rewrite config_monitoring_spec. destruct Hj as [Hj|Hj].
    - rewrite (all_set_any_set env _ _ Hj : any_set env monitoring_vars = true), Hj. eauto.
    - rewrite (none_set_any_set _ _ Hj). eauto. }
  destruct Ea as [a Ea], Ef as [f Ef], Eg as [g Eg], Eh as [h Eh], Ei as [i Ei],
           Ej as [j Ej].
  unfold config. rewrite !getEnvVar_fallback.
  rewrite (getEnvVar_required env "REACT_APP_API_BASE_URL" None eq_refl), Hbase.
  rewrite Ea, Ef, Eg, Eh, Ei, Ej. cbn [bind]. eexists; reflexivity.
Qed.

Ltac group_of H spec :=
  rewrite spec in H;
  repeat match type of H with
         | (if ?b then _ else _) = _ => destruct b
         end;
  first [ discriminate H | injection H as <-; reflexivity ].

(** C1 (as the code has it).  Whenever the configuration is built, each
    optional sub-group is absent exactly when it is not triggered ([auth] by
    its domain, [firebase] by its API key, the four others by any of their
    variables) and otherwise holds the values of its variables.  It is built
    whenever the API base URL is set and every group has all or none of its
    variables set.  In [auth] and [firebase] every field is required once the
    group is triggered: a missing one makes the construction throw the error
    that names the first missing variable. *)
Theorem config_optional_groups (env : ProcessEnv) :
  (forall c, config env = Return c ->
     auth c
     = (if is_set env "REACT_APP_AUTH_DOMAIN"
        then Some {| auth_domain := value_of env "REACT_APP_AUTH_DOMAIN";
                     auth_clientId := value_of env "REACT_APP_CLIENT_ID";
                     auth_redirectUri := value_of env "REACT_APP_REDIRECT_URI" |}
        else None) /\
     firebase c
     = (if is_set env "REACT_APP_FIREBASE_API_KEY"
        then Some {| firebase_apiKey := value_of env "REACT_APP_FIREBASE_API_KEY";
                     firebase_authDomain := value_of env "REACT_APP_FIREBASE_AUTH_DOMAIN";
                     firebase_projectId := value_of env "REACT_APP_FIREBASE_PROJECT_ID";
                     firebase_storageBucket :=
                       value_of env "REACT_APP_FIREBASE_STORAGE_BUCKET";
                     firebase_messagingSenderId :=
                       value_of env "REACT_APP_FIREBASE_MESSAGING_SENDER_ID";
                     firebase_appId := value_of env "REACT_APP_FIREBASE_APP_ID" |}
        else None) /\
     analytics c
     = (if any_set env analytics_vars
        then Some {| analytics_googleAnalyticsId :=
                       value_of env "REACT_APP_GOOGLE_ANALYTICS_ID";
                     analytics_mixpanelToken := value_of env "REACT_APP_MIXPANEL_TOKEN" |}
        else None) /\
     assets c
     = (if any_set env assets_vars
        then Some {| assets_cdnUrl := value_of env "REACT_APP_CDN_URL";
                     assets_assetsUrl := value_of env "REACT_APP_ASSETS_URL" |}
        else None) /\
     social c
     = (if any_set env social_vars
        then Some {| social_facebookAppId := value_of env "REACT_APP_FACEBOOK_APP_ID";
                     social_githubClientId := value_of env "REACT_APP_GITHUB_CLIENT_ID";
                     social_linkedinClientId :=
                       value_of env "REACT_APP_LINKEDIN_CLIENT_ID" |}
        else None) /\
     monitoring c
     = (if any_set env monitoring_vars
        then Some {| monitoring_sentryDsn := value_of env "REACT_APP_SENTRY_DSN";
                     monitoring_hotjarId := value_of env "REACT_APP_HOTJAR_ID" |}
        else None)) /\
  (is_set env "REACT_APP_API_BASE_URL" = true ->
   Forall (fun vars => all_set env vars = true \/ none_set env vars = true)
          [ auth_vars; firebase_vars; analytics_vars; assets_vars; social_vars;
            monitoring_vars ] ->
   exists c, config env = Return c) /\
  (is_set env "REACT_APP_API_BASE_URL" = true ->
   is_set env "REACT_APP_AUTH_DOMAIN" = true ->
   all_set env auth_vars = false ->
   config env = Throw (new_Error (required_message (first_missing auth_vars env)))) /\
  (is_set env "REACT_APP_API_BASE_URL" = true ->
   is_set env "REACT_APP_AUTH_DOMAIN" = false \/ all_set env auth_vars = true ->
   is_set env "REACT_APP_FIREBASE_API_KEY" = true ->
   all_set env firebase_vars = false ->
   config env = Throw (new_Error (required_message (first_missing firebase_vars env)))).
Proof.
  split; [|split; [|split]].
  - intros c (_ & _ & _ & Ha & Hf & Hg & Hh & Hi & Hj & _)%config_Return.
    repeat split.
    + group_of Ha config_auth_spec.
    + group_of Hf config_firebase_spec.
    + group_of Hg config_analytics_spec.
    + group_of Hh config_assets_spec.
    + group_of Hi config_social_spec.
    + group_of Hj config_monitoring_spec.
  - apply config_returns.
  - intros Hbase Hgate Hall. unfold config. rewrite !getEnvVar_fallback.
    rewrite (getEnvVar_required env "REACT_APP_API_BASE_URL" None eq_refl), Hbase.
    cbn [bind]. rewrite config_auth_spec, Hgate, Hall. reflexivity.
  - intros Hbase Hauth Hgate Hall. unfold config. rewrite !getEnvVar_fallback.
    rewrite (getEnvVar_required env "REACT_APP_API_BASE_URL" None eq_refl), Hbase.
    cbn [bind]. rewrite config_auth_spec, config_firebase_spec, Hgate, Hall.
    destruct Hauth as [->| Hauth].
    + reflexivity.
    + rewrite (all_set_In _ _ _ Hauth (or_introl eq_refl)), Hauth. reflexivity.
Qed.

(** [config_optional_groups] at four environments: the base URL alone; the
    base URL with the Firebase key; with the auth domain; with both
    monitoring variables. *)
Lemma config_optional_groups_witness :
  (exists c, config {[ "REACT_APP_API_BASE_URL" := "https://api.example.com" ]} = Return c) /\
  config firebase_key_only
  = Throw (new_Error (required_message "REACT_APP_FIREBASE_AUTH_DOMAIN")) /\
  config {[ "REACT_APP_API_BASE_URL" := "https://api.example.com";
            "REACT_APP_AUTH_DOMAIN" := "auth.example.com" ]}
  = Throw (new_Error (required_message "REACT_APP_CLIENT_ID")) /\
  (forall c, config {[ "REACT_APP_API_BASE_URL" := "https://api.example.com";
                       "REACT_APP_SENTRY_DSN" := "dsn"; "REACT_APP_HOTJAR_ID" := "7" ]}
             = Return c ->
             monitoring c = Some {| monitoring_sentryDsn := "dsn";
                                    monitoring_hotjarId := "7" |}).
Proof.
  split; [|split; [|split]].
  - destruct (config_optional_groups
                {[ "REACT_APP_API_BASE_URL" := "https://api.example.com" ]})
      as (_ & Hbuilt & _ & _).
    apply Hbuilt; [reflexivity|].
    repeat (apply Forall_cons; split; [right; reflexivity|]). constructor.
  - destruct (config_optional_groups firebase_key_only) as (_ & _ & _ & Hfirebase).
    apply Hfirebase; [reflexivity | left; reflexivity | reflexivity | reflexivity].
  - destruct (config_optional_groups
                {[ "REACT_APP_API_BASE_URL" := "https://api.example.com";
                   "REACT_APP_AUTH_DOMAIN" := "auth.example.com" ]})
      as (_ & _ & Hauth & _).
    apply Hauth; reflexivity.
  - intros c Hc.
    destruct (config_optional_groups
                {[ "REACT_APP_API_BASE_URL" := "https://api.example.com";
                   "REACT_APP_SENTRY_DSN" := "dsn"; "REACT_APP_HOTJAR_ID" := "7" ]})
      as (Hgroups & _ & _ & _).
    destruct (Hgroups c Hc) as (_ & _ & _ & _ & _ & Hmonitoring).
    exact Hmonitoring.
Defined.

(** C1 (as stated) fails: with the Firebase API key as the only Firebase
    variable set, the construction throws instead of yielding a [firebase]
    group whose other five fields are empty. *)
Lemma config_firebase_key_only_throws :
  config firebase_key_only
  = Throw {| name := "Error";
             message := "Environment variable REACT_APP_FIREBASE_AUTH_DOMAIN is required but not set" |}.
Proof. vm_compute. reflexivity. Qed.

(** *** [validateConfig] *)

Lemma missingVars_In (required : list string) (env : ProcessEnv) (v : string) :
  In v (missingVars required env) <-> In v required /\ is_set env v = false.
Proof.
  unfold missingVars, is_set. rewrite filter_In, negb_true_iff. reflexivity.
Qed.

Lemma missingVars_nil (required : list string) (env : ProcessEnv) :
  missingVars required env = [] <-> all_set env required = true.
Proof.
  unfold missingVars, all_set, is_set.
  induction required as [|k required IH]; cbn [List.filter forallb].
  - split; reflexivity.
  - destruct (truthy (env !! k)); cbn [negb andb].
    + exact IH.
    + split; discriminate.
Qed.

(** C7: the validation pass throws exactly when some required variable is
    not set, its message lists every such name of the list, in order and
    joined by commas, and it returns normally when all of them are set.  For
    the list of the source: the base URL alone is reported when it is unset. *)
Theorem validateConfig_spec (env : ProcessEnv) :
  validateConfig env
  = (if is_set env "REACT_APP_API_BASE_URL" then Return tt
     else Throw (new_Error
            ("Missing required environment variables: REACT_APP_API_BASE_URL" +:+ LF +:+
             "Please check your .env file and ensure all required variables are set."))) /\
  missingVars requiredVars env
  = (if is_set env "REACT_APP_API_BASE_URL" then [] else [ "REACT_APP_API_BASE_URL" ]) /\
  (forall required,
      validateConfig_for required env
      = (if all_set env required then Return tt
         else Throw (new_Error
                ("Missing required environment variables: " +:+
                 join ", " (missingVars required env) +:+ LF +:+
                 "Please check your .env file and ensure all required variables are set."))) /\
      (forall v, In v (missingVars required env)
                 <-> In v required /\ is_set env v = false)).
Proof.
  split; [|split; [|intros required; split]].
  - unfold validateConfig, validateConfig_for, requiredVars, missingVars, is_set.
    cbn [List.filter]. destruct (truthy (env !! "REACT_APP_API_BASE_URL")); reflexivity.
  - unfold requiredVars, missingVars, is_set. cbn [List.filter].
    destruct (truthy (env !! "REACT_APP_API_BASE_URL")); reflexivity.
  - unfold validateConfig_for.
    destruct (all_set env required) eqn:Hall.
    + apply missingVars_nil in Hall. rewrite Hall. reflexivity.
    + destruct (missingVars required env) as [|k l] eqn:Hm.
      * apply missingVars_nil in Hm. congruence.
      * reflexivity.
  - intros v. apply missingVars_In.
Qed.

(** Two of three required names missing: both are reported. *)
Example validateConfig_reports_all_missing :
  validateConfig_for [ "A"; "B"; "C" ] {[ "B" := "set" ]}
  = Throw (new_Error
       ("Missing required environment variables: A, C" +:+ LF +:+
        "Please check your .env file and ensure all required variables are set.")).
Proof. vm_compute. reflexivity. Qed.

End EnvCorrect.

(** ** The development proxy *)

Module ProxyCorrect.
Import JS JSFacts Proxy.





End ProxyCorrect.

(** ** The API client *)

Module ClientCorrect.
Import JS JSFacts Client.

(** *** The request handed to [fetch] *)

(** [request] consults the network once, with the URL and the options it
    built; nothing else of the network matters. *)
Lemma request_only_fetches (this : ApiClient) (localStorage : gmap string string)
    (net1 net2 : Network) (endpoint : string) (options : RequestInit) (w : Timers) :
  net1 (request_url this endpoint) (request_config this localStorage options)
  = net2 (request_url this endpoint) (request_config this localStorage options) ->
  request this localStorage net1 endpoint options w
  = request this localStorage net2 endpoint options w.
Proof. intros H. unfold request, request_try. now rewrite H. Qed.

(** C9: with a stored token, the [Authorization] header given to [fetch] is
    the bearer token of the store, whatever the caller put under that key. *)
Theorem request_authorization_from_store (this : ApiClient)
    (localStorage : gmap string string) (options : RequestInit) (token : string) :
  localStorage !! "authToken" = Some token -> token <> "" ->
  init_headers (request_config this localStorage options) !! "Authorization"
  = Some ("Bearer " +:+ token).
Proof.
  intros Htoken Hne. unfold request_config. rewrite Htoken.
  destruct token as [|c token]; [congruence|].
  cbn [truthy_string init_headers]. apply lookup_insert_eq.
Qed.

(** [request_authorization_from_store] when the caller passes an
    [Authorization] header of its own. *)
Lemma request_authorization_from_store_witness :
  init_headers
    (request_config (new_ApiClient (fun _ => None) ∅) {[ "authToken" := "stored" ]}
       {| method := None; init_headers := {[ "Authorization" := "Bearer mine" ]};
          body := None |})
  !! "Authorization" = Some "Bearer stored".
Proof.
  apply (request_authorization_from_store _ {[ "authToken" := "stored" ]} _ "stored").
  - reflexivity.
  - discriminate.
Defined.

(** Without a stored token the caller's value stays, and overrides win over
    the configured defaults. *)
Lemma request_headers_without_token (this : ApiClient)
    (localStorage : gmap string string) (options : RequestInit) (key : string) :
  truthy (localStorage !! "authToken") = false ->
  init_headers (request_config this localStorage options) !! key
  = match init_headers options !! key with
    | Some v => Some v
    | None => headers (config this) !! key
    end.
Proof.
  intros Htoken. unfold request_config, truthy in *.
  destruct (localStorage !! "authToken") as [t|]; [rewrite Htoken|];
    cbn [init_headers]; rewrite lookup_union;
    destruct (init_headers options !! key), (headers (config this) !! key);
    reflexivity.
Qed.

(** C10: in development the base URL is empty whatever the environment says,
    so the URL fetched is the endpoint itself; otherwise the base URL is the
    value of [REACT_APP_API_BASE_URL], or empty when that is unset. *)
Theorem getApiConfig_baseURL (toNumber : option string -> option Z)
    (env : gmap string string) :
  (env !! "NODE_ENV" = Some "development" ->
   baseURL (getApiConfig toNumber env) = "" /\
   forall endpoint, request_url (new_ApiClient toNumber env) endpoint = endpoint) /\
  (env !! "NODE_ENV" <> Some "development" ->
   baseURL (getApiConfig toNumber env)
   = match env !! "REACT_APP_API_BASE_URL" with Some url => url | None => "" end /\
   forall endpoint,
     request_url (new_ApiClient toNumber env) endpoint
     = match env !! "REACT_APP_API_BASE_URL" with Some url => url | None => "" end
       +:+ endpoint).
Proof.
  assert (Hor : or_string (env !! "REACT_APP_API_BASE_URL") ""
                = match env !! "REACT_APP_API_BASE_URL" with
                  | Some url => url | None => "" end).
  { unfold or_string. destruct (env !! "REACT_APP_API_BASE_URL") as [[|c u]|]; reflexivity. }
  unfold request_url, new_ApiClient, getApiConfig. cbn [config baseURL].
  split.
  - intros Hdev%strict_eq_true. rewrite Hdev. split; reflexivity.
  - intros Hdev%strict_eq_false. rewrite Hdev, Hor. split; reflexivity.
Qed.

(** [getApiConfig_baseURL] in development and in production, with the same
    base URL configured. *)
Lemma getApiConfig_baseURL_witness :
  request_url
    (new_ApiClient (fun _ => None)
       {[ "NODE_ENV" := "development";
          "REACT_APP_API_BASE_URL" := "https://api.production.com" ]})
    "/api/users" = "/api/users" /\
  request_url
    (new_ApiClient (fun _ => None)
       {[ "NODE_ENV" := "production";
          "REACT_APP_API_BASE_URL" := "https://api.production.com" ]})
    "/api/users" = "https://api.production.com/api/users".
Proof.
  split.
  - destruct (getApiConfig_baseURL (fun _ => None)
                {[ "NODE_ENV" := "development";
                   "REACT_APP_API_BASE_URL" := "https://api.production.com" ]})
      as [Hdev _].
    destruct (Hdev eq_refl) as [_ Hurl]. apply Hurl.
  - destruct (getApiConfig_baseURL (fun _ => None)
                {[ "NODE_ENV" := "production";
                   "REACT_APP_API_BASE_URL" := "https://api.production.com" ]})
      as [_ Hprod].
    assert (Hne : ({[ "NODE_ENV" := "production";
                      "REACT_APP_API_BASE_URL" := "https://api.production.com" ]}
                    : gmap string string) !! "NODE_ENV" <> Some "development")
      by (vm_compute; discriminate).
    destruct (Hprod Hne) as [_ Hurl]. rewrite Hurl. reflexivity.
Defined.

(** *** The timer *)

Lemma armed_setTimeout (delay : Z) (w : Timers) :
  armed (fst (setTimeout delay w)) (snd (setTimeout delay w)) = true.
Proof.
  unfold armed, setTimeout. cbn [fst snd pending].
  rewrite lookup_insert_eq. reflexivity.
Qed.

Lemma armed_clearTimeout (id : nat) (w : Timers) :
  armed id (clearTimeout id w) = false.
Proof.
  unfold armed, clearTimeout. cbn [pending]. rewrite lookup_delete_eq.
  apply bool_decide_eq_false. intros [x Hx]. discriminate.
Qed.

Lemma armed_timer_runs (id : nat) (w : Timers) :
  armed id (timer_runs id w) = false.
Proof. apply armed_clearTimeout. Qed.

(** The timer is disarmed when [fetch] resolves, whatever the response, and
    has run when the deadline elapsed. *)
Lemma request_disarms_after_response (this : ApiClient)
    (localStorage : gmap string string) (net : Network) (endpoint : string)
    (options : RequestInit) (w : Timers) :
  (forall e, net (request_url this endpoint) (request_config this localStorage options)
             <> Rejects e) ->
  armed (timer_of w) (snd (request this localStorage net endpoint options w)) = false.
Proof.
  intros Hnet. unfold request, request_try, timer_of. cbn [setTimeout].
  destruct (net _ _) as [r| e |].
  - destruct (negb (ok r)); [|destruct (res_status r =? 204)%Z; [|destruct (json r)]];
      cbn [snd]; apply armed_clearTimeout.
  - exfalso. exact (Hnet e eq_refl).
  - cbn [snd]. apply armed_timer_runs.
Qed.

(** It is left armed when [fetch] rejects on its own: the [catch] clause is
    entered without [clearTimeout] having been reached. *)
Lemma request_leaves_timer_after_rejection (this : ApiClient)
    (localStorage : gmap string string) (net : Network) (endpoint : string)
    (options : RequestInit) (w : Timers) (e : Thrown) :
  net (request_url this endpoint) (request_config this localStorage options) = Rejects e ->
  request this localStorage net endpoint options w
  = (Throw (request_catch e), snd (setTimeout (timeout (config this)) w)) /\
  armed (timer_of w) (snd (request this localStorage net endpoint options w)) = true.
Proof.
  intros Hnet. unfold request, request_try, timer_of. cbn [setTimeout]. rewrite Hnet.
  split; [reflexivity|]. cbn [snd]. apply (armed_setTimeout _ w).
Qed.

(** C2 (the code departs from it): when the backend cannot be reached,
    [fetch] rejects with a [TypeError]; the call then fails with status 0 and
    its timer, number 0 with the default delay, is still pending. *)
Theorem request_rejected_leaves_timer_armed :
  let this := new_ApiClient (fun _ => None) {[ "NODE_ENV" := "production" ]} in
  let '(result, timers) :=
    request this ∅ network_down "/api/users" no_options no_timers in
  result = Throw {| status := 0; statusText := "Failed to fetch"; data := JNull |} /\
  armed 0 timers = true /\
  pending timers !! 0%nat = Some 10000%Z.
Proof. vm_compute. repeat split. Qed.

(** *** Failures *)

(** C4: a response whose status is outside 200-299 makes the call fail with
    an [ApiError] carrying the response's status and status text, and as data
    the body as [json()] decoded it, or null when [json()] failed. *)
Theorem request_non_success_status (this : ApiClient)
    (localStorage : gmap string string) (net : Network) (endpoint : string)
    (options : RequestInit) (w : Timers) (r : Response) :
  net (request_url this endpoint) (request_config this localStorage options) = Responds r ->
  ~ (200 <= res_status r <= 299)%Z ->
  fst (request this localStorage net endpoint options w)
  = Throw {| status := res_status r;
             statusText := res_statusText r;
             data := match json r with Return v => v | Throw _ => JNull end |}.
Proof.
  intros Hnet Hstatus. unfold request, request_try. cbn [setTimeout]. rewrite Hnet.
  assert (Hok : ok r = false).
  { unfold ok. apply andb_false_iff. rewrite !Z.leb_gt. lia. }
  rewrite Hok. reflexivity.
Qed.

(** [request_non_success_status] at a 404 response whose body is the object
    with the message [not found]. *)
Lemma request_non_success_status_witness :
  fst (request (new_ApiClient (fun _ => None) ∅) ∅ not_found_network "/api/users/7"
         no_options no_timers)
  = Throw {| status := 404; statusText := "Not Found";
             data := JObj [ ("message", JStr "not found") ] |}.
Proof.
  apply (request_non_success_status _ _ not_found_network _ _ _
           {| res_status := 404; res_statusText := "Not Found";
              json := Return (JObj [ ("message", JStr "not found") ]) |}).
  - reflexivity.
  - cbn. lia.
Defined.





End ClientCorrect.

(** ** More on the configuration loader *)

Module EnvMore.
Import JS Env EnvCorrect.

(** *** [getEnvVar] *)

Lemma is_set_lookup (env : ProcessEnv) (key : string) :
  is_set env key = true ->
  env !! key = Some (value_of env key) /\ value_of env key <> "".
Proof.
  unfold is_set, value_of, truthy. destruct (env !! key) as [[|c v]|]; try discriminate.
  intros _. split; [reflexivity | discriminate].
Qed.

(** A call of [getEnvVar] returns exactly when the variable is set or the
    fallback is a non-empty string; what it returns is never the empty
    string: it is the variable's value when that is set and the fallback
    otherwise.  When it throws, the error names the variable. *)
Theorem getEnvVar_outcome (env : ProcessEnv) (key : string) (fallback : option string) :
  ((exists v, getEnvVar env key fallback = Return v)
   <-> is_set env key = true \/ truthy fallback = true) /\
  (forall v, getEnvVar env key fallback = Return v ->
             v <> "" /\
             (is_set env key = true -> env !! key = Some v) /\
             (is_set env key = false -> fallback = Some v)) /\
  (forall e, getEnvVar env key fallback = Throw e ->
             e = new_Error ("Environment variable " +:+ key +:+ " is required but not set")).
Proof.
  destruct (truthy fallback) eqn:Hfb.
  - destruct fallback as [[|c fb]|]; try discriminate.
    rewrite getEnvVar_fallback.
    split; [split; eauto|]. split; [|discriminate].
    intros v [= <-]. destruct (is_set env key) eqn:Hset.
    + destruct (is_set_lookup env key Hset) as [Hv Hne]. repeat split; auto; discriminate.
    + repeat split; auto; discriminate.
  - rewrite (getEnvVar_required env key fallback Hfb).
    destruct (is_set env key) eqn:Hset.
    + destruct (is_set_lookup env key Hset) as [Hv Hne].
      split; [split; eauto|]. split; [|discriminate].
      intros v [= <-]. repeat split; auto; discriminate.
    + split; [split; [intros [v Hv]; discriminate | intros [H|H]; discriminate]|].
      split; [discriminate|]. intros e [= <-]. reflexivity.
Qed.

Lemma getEnvVar_outcome_witness :
  getEnvVar {[ "REACT_APP_CDN_URL" := "" ]} "REACT_APP_CDN_URL" (Some "")
  = Throw (new_Error "Environment variable REACT_APP_CDN_URL is required but not set") /\
  (exists v, getEnvVar ∅ "REACT_APP_API_VERSION" (Some "v1") = Return v).
Proof.
  split.
  - destruct (getEnvVar {[ "REACT_APP_CDN_URL" := "" ]} "REACT_APP_CDN_URL" (Some ""))
      as [v|e] eqn:E.
    + exfalso.
      destruct (getEnvVar_outcome {[ "REACT_APP_CDN_URL" := "" ]} "REACT_APP_CDN_URL"
                  (Some "")) as ([Hret _] & _ & _).
      destruct (Hret (ex_intro _ v E)); discriminate.
    + destruct (getEnvVar_outcome {[ "REACT_APP_CDN_URL" := "" ]} "REACT_APP_CDN_URL"
                  (Some "")) as (_ & _ & Hthrow).
      rewrite (Hthrow e E). reflexivity.
  - apply (getEnvVar_outcome ∅ "REACT_APP_API_VERSION" (Some "v1")).
    right; reflexivity.
Defined.

(** *** When the [config] object is built *)

Lemma gated_group_returns {A : Type} (gate all : bool) (a : A) (e : Error) :
  (exists r, (if gate then if all then Return (E:=Error) (Some a) else Throw e
              else Return None) = Return r)
  <-> gate = false \/ all = true.
Proof.
  destruct gate, all; split; eauto; try (intros [r Hr]; discriminate);
    intros [H|H]; discriminate.
Qed.

Lemma config_auth_returns (env : ProcessEnv) :
  (exists a, config_auth env = Return a)
  <-> is_set env "REACT_APP_AUTH_DOMAIN" = false \/ all_set env auth_vars = true.
Proof. rewrite config_auth_spec. apply gated_group_returns. Qed.

Lemma config_firebase_returns (env : ProcessEnv) :
  (exists f, config_firebase env = Return f)
  <-> is_set env "REACT_APP_FIREBASE_API_KEY" = false \/ all_set env firebase_vars = true.
Proof. rewrite config_firebase_spec. apply gated_group_returns. Qed.

Lemma config_analytics_returns (env : ProcessEnv) :
  (exists g, config_analytics env = Return g)
  <-> any_set env analytics_vars = false \/ all_set env analytics_vars = true.
Proof. rewrite config_analytics_spec. apply gated_group_returns. Qed.

Lemma config_assets_returns (env : ProcessEnv) :
  (exists h, config_assets env = Return h)
  <-> any_set env assets_vars = false \/ all_set env assets_vars = true.
Proof. rewrite config_assets_spec. apply gated_group_returns. Qed.

Lemma config_social_returns (env : ProcessEnv) :
  (exists i, config_social env = Return i)
  <-> any_set env social_vars = false \/ all_set env social_vars = true.
Proof. rewrite config_social_spec. apply gated_group_returns. Qed.

Lemma config_monitoring_returns (env : ProcessEnv) :
  (exists j, config_monitoring env = Return j)
  <-> any_set env monitoring_vars = false \/ all_set env monitoring_vars = true.
Proof. rewrite config_monitoring_spec. apply gated_group_returns. Qed.

(** The configuration is built exactly when the API base URL is set, [auth]
    and [firebase] are either not triggered or have all their variables set,
    and each of the four other groups has none or all of its variables set.  A
    group that is set only in part makes the construction throw. *)
Theorem config_built_iff (env : ProcessEnv) :
  (exists c, config env = Return c) <->
  is_set env "REACT_APP_API_BASE_URL" = true /\
  (is_set env "REACT_APP_AUTH_DOMAIN" = false \/ all_set env auth_vars = true) /\
  (is_set env "REACT_APP_FIREBASE_API_KEY" = false \/ all_set env firebase_vars = true) /\
  (any_set env analytics_vars = false \/ all_set env analytics_vars = true) /\
  (any_set env assets_vars = false \/ all_set env assets_vars = true) /\
  (any_set env social_vars = false \/ all_set env social_vars = true) /\
  (any_set env monitoring_vars = false \/ all_set env monitoring_vars = true).
Proof.
  rewrite <- config_auth_returns, <- config_firebase_returns,
          <- config_analytics_returns, <- config_assets_returns,
          <- config_social_returns, <- config_monitoring_returns.
  split.
  - intros [c (Hbase & _ & _ & Ha & Hf & Hg & Hh & Hi & Hj & _)%config_Return].
    repeat split; eauto.
  - intros (Hbase & [a Ha] & [f Hf] & [g Hg] & [h Hh] & [i Hi] & [j Hj]).
    unfold config. rewrite !getEnvVar_fallback.
    rewrite (getEnvVar_required env "REACT_APP_API_BASE_URL" None eq_refl), Hbase.
    rewrite Ha, Hf, Hg, Hh, Hi, Hj. cbn [bind]. eexists; reflexivity.
Qed.

(** *** What a built configuration holds *)

Lemma all_set_values (env : ProcessEnv) (vars : list string) :
  all_set env vars = true -> Forall (fun k => value_of env k <> "") vars.
Proof.
  intros Hall. apply Forall_forall. intros k Hk%list_elem_of_In.
  apply is_set_lookup. exact (all_set_In env vars k Hall Hk).
Qed.

Lemma default_nonempty (env : ProcessEnv) (key fb : string) :
  fb <> "" -> (if is_set env key then value_of env key else fb) <> "".
Proof.
  intros Hfb. destruct (is_set env key) eqn:Hset; [|exact Hfb].
  apply is_set_lookup. exact Hset.
Qed.

Lemma or_string_nonempty (v : option string) (fb : string) :
  fb <> "" -> or_string v fb <> "".
Proof.
  intros Hfb. unfold or_string. destruct v as [[|c s]|]; cbn [truthy_string];
    [exact Hfb | discriminate | exact Hfb].
Qed.

Ltac group_fields H spec Hsome a :=
  rewrite spec, Hsome in H;
  match type of H with
  | (if ?gate then if ?all then _ else _ else _) = _ =>
      destruct gate; [destruct all eqn:Hall; [|discriminate H]|discriminate H];
      injection H as H; subst a
  end.

(** No string of a built configuration is empty: the required fields and
    the fields with a default are non-empty, and so is every field of every
    optional group that is present. *)
Theorem config_strings_nonempty (env : ProcessEnv) (c : AppConfig) :
  config env = Return c ->
  app_name (app c) <> "" /\ app_version (app c) <> "" /\
  app_environment (app c) <> "" /\
  api_baseUrl (api c) <> "" /\ api_version (api c) <> "" /\
  development_logLevel (development c) <> "" /\
  (forall a, auth c = Some a ->
     auth_domain a <> "" /\ auth_clientId a <> "" /\ auth_redirectUri a <> "") /\
  (forall f, firebase c = Some f ->
     firebase_apiKey f <> "" /\ firebase_authDomain f <> "" /\
     firebase_projectId f <> "" /\ firebase_storageBucket f <> "" /\
     firebase_messagingSenderId f <> "" /\ firebase_appId f <> "") /\
  (forall g, analytics c = Some g ->
     analytics_googleAnalyticsId g <> "" /\ analytics_mixpanelToken g <> "") /\
  (forall h, assets c = Some h -> assets_cdnUrl h <> "" /\ assets_assetsUrl h <> "") /\
  (forall i, social c = Some i ->
     social_facebookAppId i <> "" /\ social_githubClientId i <> "" /\
     social_linkedinClientId i <> "") /\
  (forall j, monitoring c = Some j ->
     monitoring_sentryDsn j <> "" /\ monitoring_hotjarId j <> "").
Proof.
  intros (Hbase & _ & _ & Ha & Hf & Hg & Hh & Hi & Hj & Hc)%config_Return.
  pose proof (f_equal app Hc) as Happ. pose proof (f_equal api Hc) as Hapi.
  pose proof (f_equal development Hc) as Hdev. clear Hc.
  cbn [app api development] in Happ, Hapi, Hdev. rewrite Happ, Hapi, Hdev.
  cbn [app_name app_version app_environment api_baseUrl api_version
       development_logLevel].
  repeat match goal with
         | |- (if is_set _ _ then _ else _) <> "" /\ _ =>
             split; [apply default_nonempty; discriminate|]
         end.
  split; [apply is_set_lookup; exact Hbase|].
  split; [apply default_nonempty; discriminate|].
  split; [apply or_string_nonempty; discriminate|].
  split; [|split; [|split; [|split; [|split]]]].
  - intros a Hsome. group_fields Ha config_auth_spec Hsome a.
    apply all_set_values in Hall. unfold auth_vars in Hall.
    rewrite !Forall_cons in Hall. cbn [auth_domain auth_clientId auth_redirectUri].
    tauto.
  - intros f Hsome. group_fields Hf config_firebase_spec Hsome f.
    apply all_set_values in Hall. unfold firebase_vars in Hall.
    rewrite !Forall_cons in Hall.
    cbn [firebase_apiKey firebase_authDomain firebase_projectId firebase_storageBucket
         firebase_messagingSenderId firebase_appId].
    tauto.
  - intros g Hsome. group_fields Hg config_analytics_spec Hsome g.
    apply all_set_values in Hall. unfold analytics_vars in Hall.
    rewrite !Forall_cons in Hall.
    cbn [analytics_googleAnalyticsId analytics_mixpanelToken]. tauto.
  - intros h Hsome. group_fields Hh config_assets_spec Hsome h.
    apply all_set_values in Hall. unfold assets_vars in Hall.
    rewrite !Forall_cons in Hall. cbn [assets_cdnUrl assets_assetsUrl]. tauto.
  - intros i Hsome. group_fields Hi config_social_spec Hsome i.
    apply all_set_values in Hall. unfold social_vars in Hall.
    rewrite !Forall_cons in Hall.
    cbn [social_facebookAppId social_githubClientId social_linkedinClientId]. tauto.
  - intros j Hsome. group_fields Hj config_monitoring_spec Hsome j.
    apply all_set_values in Hall. unfold monitoring_vars in Hall.
    rewrite !Forall_cons in Hall. cbn [monitoring_sentryDsn monitoring_hotjarId]. tauto.
Qed.

(** [config_strings_nonempty] at an environment with the base URL and both
    asset variables set. *)
Lemma config_strings_nonempty_witness :
  exists c,
    config {[ "REACT_APP_API_BASE_URL" := "https://api.example.com";
              "REACT_APP_CDN_URL" := "https://cdn.example.com";
              "REACT_APP_ASSETS_URL" := "/static" ]} = Return c /\
    api_version (api c) <> "" /\
    (forall h, assets c = Some h -> assets_cdnUrl h <> "" /\ assets_assetsUrl h <> "").
Proof.
  destruct (config {[ "REACT_APP_API_BASE_URL" := "https://api.example.com";
                      "REACT_APP_CDN_URL" := "https://cdn.example.com";
                      "REACT_APP_ASSETS_URL" := "/static" ]}) as [c|e] eqn:Hc.
  - exists c. split; [reflexivity|].
    destruct (config_strings_nonempty _ c Hc)
      as (_ & _ & _ & _ & Hversion & _ & _ & _ & _ & Hassets & _).
    split; assumption.
  - vm_compute in Hc. discriminate Hc.
Defined.

(** *** The environment checks *)

(** On a built configuration, [isDevelopment] holds exactly when
    [REACT_APP_ENVIRONMENT] is unset, empty or [development]; [isStaging] and
    [isProduction] hold exactly for the values [staging] and [production].
    The value is not validated: for any other non-empty value none of the
    three checks holds.  No two of them ever hold together. *)
Theorem environment_checks (env : ProcessEnv) (c : AppConfig) :
  config env = Return c ->
  (isDevelopment c = true <->
   is_set env "REACT_APP_ENVIRONMENT" = false \/
   env !! "REACT_APP_ENVIRONMENT" = Some "development") /\
  (isStaging c = true <-> env !! "REACT_APP_ENVIRONMENT" = Some "staging") /\
  (isProduction c = true <-> env !! "REACT_APP_ENVIRONMENT" = Some "production") /\
  (forall v, env !! "REACT_APP_ENVIRONMENT" = Some v ->
             v <> "" -> v <> "development" -> v <> "staging" -> v <> "production" ->
             isDevelopment c = false /\ isStaging c = false /\ isProduction c = false) /\
  isDevelopment c && isStaging c = false /\
  isDevelopment c && isProduction c = false /\
  isStaging c && isProduction c = false.
Proof.
  intros (_ & _ & _ & _ & _ & _ & _ & _ & _ & Hc)%config_Return.
  pose proof (f_equal (fun x => app_environment (app x)) Hc) as Henv.
  cbn [app app_environment] in Henv. clear Hc.
  unfold isDevelopment, isStaging, isProduction. rewrite Henv. clear Henv.
  unfold is_set, value_of, truthy.
  destruct (env !! "REACT_APP_ENVIRONMENT") as [s|];
    [destruct (truthy_string s) eqn:Hs|].
  all: repeat match goal with
              | |- context [String.eqb ?a ?b] => destruct (String.eqb_spec a b)
              end.
  all: cbn [andb].
  all: try (destruct s; [discriminate Hs|]).
  all: try (destruct s; [|discriminate Hs]).
  all: intuition (subst; try congruence).
Qed.

(** [environment_checks] at an environment whose [REACT_APP_ENVIRONMENT] is
    [test]. *)
Lemma environment_checks_witness :
  exists c,
    config {[ "REACT_APP_API_BASE_URL" := "https://api.example.com";
              "REACT_APP_ENVIRONMENT" := "test" ]} = Return c /\
    isDevelopment c = false /\ isStaging c = false /\ isProduction c = false.
Proof.
  destruct (config {[ "REACT_APP_API_BASE_URL" := "https://api.example.com";
                      "REACT_APP_ENVIRONMENT" := "test" ]}) as [c|e] eqn:Hc.
  - exists c. split; [reflexivity|].
    destruct (environment_checks _ c Hc) as (_ & _ & _ & Hother & _).
    apply (Hother "test"); [reflexivity | discriminate ..].
  - vm_compute in Hc. discriminate Hc.
Defined.

(** *** [validateConfig] and [config] *)

(** A configuration that is built passes the validation, and an environment
    that fails the validation makes the construction throw the error for the
    API base URL (the fields read before it all have a fallback). *)
Theorem validateConfig_and_config (env : ProcessEnv) :
  (forall c, config env = Return c -> validateConfig env = Return tt) /\
  (forall e, validateConfig env = Throw e ->
             config env
             = Throw (new_Error
                 "Environment variable REACT_APP_API_BASE_URL is required but not set")).
Proof.
  assert (Hv : validateConfig env
               = if is_set env "REACT_APP_API_BASE_URL" then Return tt
                 else Throw (new_Error (missing_message [ "REACT_APP_API_BASE_URL" ]))).
  { unfold validateConfig, validateConfig_for, requiredVars, missingVars, is_set.
    cbn [List.filter]. destruct (truthy (env !! "REACT_APP_API_BASE_URL")); reflexivity. }
  rewrite Hv. split.
  - intros c (Hbase & _)%config_Return. now rewrite Hbase.
  - intros e He. destruct (is_set env "REACT_APP_API_BASE_URL") eqn:Hbase; [discriminate|].
    unfold config. rewrite !getEnvVar_fallback.
    rewrite (getEnvVar_required env "REACT_APP_API_BASE_URL" None eq_refl), Hbase.
    reflexivity.
Qed.

(** [validateConfig_and_config] at the empty environment, and the converse
    of its first part failing where only the Firebase key is set. *)
Lemma validateConfig_and_config_witness :
  config ∅
  = Throw (new_Error
      "Environment variable REACT_APP_API_BASE_URL is required but not set") /\
  validateConfig firebase_key_only = Return tt.
Proof.
  split.
  - destruct (validateConfig ∅) as [u|e] eqn:Hv.
    + vm_compute in Hv. discriminate Hv.
    + destruct (validateConfig_and_config ∅) as [_ Hthrow]. exact (Hthrow e Hv).
  - reflexivity.
Defined.

(** *** [parseNumber] reads decimal notation *)

Lemma string_of_uint_digits (d : Decimal.uint) :
  all_digits (NilEmpty.string_of_uint d) = true.
Proof. induction d; cbn [NilEmpty.string_of_uint all_digits]; auto. Qed.

Lemma read_digits_of_uint_acc (d : Decimal.uint) (acc : positive) :
  read_digits (Z.pos acc) (NilEmpty.string_of_uint d) = Z.pos (Pos.of_uint_acc d acc).
Proof.
  revert acc. induction d; intros acc;
    cbn [NilEmpty.string_of_uint read_digits Pos.of_uint_acc];
    [reflexivity | ..];
    match goal with
    | |- (if is_digit ?ch then _ else _) = _ => change (is_digit ch) with true
    end; cbn iota; rewrite <- IHd; f_equal;
    match goal with
    | |- context [digit_value ?ch] =>
        let v := eval vm_compute in (digit_value ch) in
        change (digit_value ch) with v
    end; lia.
Qed.

Lemma read_digits_of_uint (d : Decimal.uint) :
  read_digits 0 (NilEmpty.string_of_uint d) = Z.of_N (Pos.of_uint d).
Proof.
  induction d; cbn [NilEmpty.string_of_uint read_digits Pos.of_uint];
    [reflexivity | ..];
    match goal with
    | |- (if is_digit ?ch then _ else _) = _ => change (is_digit ch) with true
    end; cbn iota;
    [exact IHd | ..];
    cbn [Z.of_N]; rewrite <- read_digits_of_uint_acc; reflexivity.
Qed.

Lemma positional_value_read (ds : string) :
  all_digits ds = true -> positional_value ds = read_digits 0 ds.
Proof.
  intros Hds. pose proof (read_digits_app ds "" Hds eq_refl 0) as H.
  assert (Hnil : ds +:+ "" = ds).
  { clear. induction ds as [|ch ds IH]; [reflexivity|].
    rewrite append_cons, IH. reflexivity. }
  rewrite Hnil in H. lia.
Qed.

Lemma positional_value_to_uint (p : positive) :
  positional_value (NilEmpty.string_of_uint (Pos.to_uint p)) = Z.pos p.
Proof.
  rewrite positional_value_read by apply string_of_uint_digits.
  rewrite read_digits_of_uint, Unsigned.of_to. reflexivity.
Qed.

Lemma string_of_uint_nonempty (p : positive) :
  NilEmpty.string_of_uint (Pos.to_uint p) <> "".
Proof.
  pose proof (Unsigned.to_uint_nonnil p) as Hnil.
  destruct (Pos.to_uint p); [congruence | discriminate ..].
Qed.

Lemma number_text_pos (p : positive) :
  number_text (Z.pos p) = NilEmpty.string_of_uint (Pos.to_uint p).
Proof.
  unfold number_text. cbn [Z.to_int NilZero.string_of_int].
  pose proof (Unsigned.to_uint_nonnil p) as Hnil.
  unfold NilZero.string_of_uint. destruct (Pos.to_uint p); [congruence | reflexivity ..].
Qed.

Lemma number_text_neg (p : positive) :
  number_text (Z.neg p) = "-" +:+ NilEmpty.string_of_uint (Pos.to_uint p).
Proof.
  unfold number_text. cbn [Z.to_int NilZero.string_of_int].
  pose proof (Unsigned.to_uint_nonnil p) as Hnil.
  unfold NilZero.string_of_uint. destruct (Pos.to_uint p); [congruence | reflexivity ..].
Qed.

(** [parseNumber] inverts decimal notation: the decimal text of an integer,
    followed by anything that does not start with a digit, is read back as
    that integer and never as the fallback.  Stated for the integers below
    10^15 in absolute value, which a double represents exactly. *)
Theorem parseNumber_number_text (z fallback : Z) (rest : string) :
  (Z.abs z < 10 ^ 15)%Z ->
  starts_with_digit rest = false ->
  parseNumber (Some (number_text z +:+ rest)) fallback = z.
Proof.
  intros Hz Hrest. rewrite parseNumber_Some.
  assert (Hexact : number_value z = Exact z).
  { unfold number_value.
    assert (Hle : (Z.abs z <=? 2 ^ 53)%Z = true).
    { apply Z.leb_le. change (2 ^ 53)%Z with 9007199254740992%Z.
      change (10 ^ 15)%Z with 1000000000000000%Z in Hz. lia. }
    now rewrite Hle. }
  destruct z as [|p|p].
  - change (number_text 0 +:+ rest) with ("" +:+ sign_text NoSign +:+ "0" +:+ rest).
    rewrite parseInt10_value; [reflexivity | constructor | reflexivity | discriminate
                              | exact Hrest].
  - rewrite number_text_pos.
    change (NilEmpty.string_of_uint (Pos.to_uint p) +:+ rest)
      with ("" +:+ sign_text NoSign +:+ NilEmpty.string_of_uint (Pos.to_uint p) +:+ rest).
    rewrite parseInt10_value;
      [ | constructor | apply string_of_uint_digits | apply string_of_uint_nonempty
        | exact Hrest ].
    rewrite positional_value_to_uint. cbn [sign_factor].
    rewrite Z.mul_1_l, Hexact. reflexivity.
  - rewrite number_text_neg.
    change (("-" +:+ NilEmpty.string_of_uint (Pos.to_uint p)) +:+ rest)
      with ("" +:+ sign_text Minus +:+ NilEmpty.string_of_uint (Pos.to_uint p) +:+ rest).
    rewrite parseInt10_value;
      [ | constructor | apply string_of_uint_digits | apply string_of_uint_nonempty
        | exact Hrest ].
    rewrite positional_value_to_uint. cbn [sign_factor].
    change (-1 * Z.pos p)%Z with (Z.neg p). rewrite Hexact. reflexivity.
Qed.

(** [parseNumber_number_text] at -30000 followed by a unit. *)
Lemma parseNumber_number_text_witness :
  parseNumber (Some (number_text (-30000) +:+ "ms")) 10000 = (-30000)%Z.
Proof. apply parseNumber_number_text; [cbn; lia | reflexivity]. Defined.

End EnvMore.

(** ** More on the development proxy *)

Module ProxyMore.
Import JS JSFacts Proxy.

(** After [onProxyRes] the response carries the two CORS headers with the
    values [*] and [true], whatever the backend had put under those names,
    and every other header of the backend is left as it was. *)
Theorem onProxyRes_cors_headers (env : gmap string string) (method path : string)
    (status : Z) (proxyHeaders : gmap string string) (out : Console) (key : string) :
  let hs := fst (onProxyRes env method path status proxyHeaders out) in
  hs !! "Access-Control-Allow-Origin" = Some "*" /\
  hs !! "Access-Control-Allow-Credentials" = Some "true" /\
  (key <> "Access-Control-Allow-Origin" -> key <> "Access-Control-Allow-Credentials" ->
   hs !! key = proxyHeaders !! key).
Proof.
  unfold onProxyRes.
  destruct (strict_eq (env !! "NODE_ENV") "development"); cbn [fst];
    (split; [|split]).
  all: try (rewrite lookup_insert_ne by discriminate; apply lookup_insert_eq).
  all: try apply lookup_insert_eq.
  all: intros H1 H2; rewrite !lookup_insert_ne by congruence; reflexivity.
Qed.

(** The request and response hooks write to the console only in
    development, one [info] line each; [onError] writes its [error] line in
    every environment.  No hook removes or changes lines already written. *)
Theorem proxy_hooks_logging (env : gmap string string) (method path : string)
    (status : Z) (proxyHeaders : gmap string string) (err : Error) (res : ServerResponse)
    (out : Console) :
  (env !! "NODE_ENV" <> Some "development" ->
   onProxyReq env method path out = out /\
   snd (onProxyRes env method path status proxyHeaders out) = out) /\
  (env !! "NODE_ENV" = Some "development" ->
   onProxyReq env method path out
   = (out ++ [(LogInfo, "[Proxy] " +:+ method +:+ " " +:+ path +:+ " → " +:+
                        getTargetUrl env +:+ path)])%list /\
   snd (onProxyRes env method path status proxyHeaders out)
   = (out ++ [(LogInfo, "[Proxy] " +:+ method +:+ " " +:+ path +:+ " ← " +:+ number_text status)])%list) /\
  snd (onError env err res out)
  = (out ++ [(LogError, "[Proxy] " +:+ "프록시 에러: " +:+ message err)])%list.
Proof.
  unfold onProxyReq, onProxyRes, onError. split; [|split].
  - intros Hdev%strict_eq_false. rewrite Hdev. split; reflexivity.
  - intros Hdev%strict_eq_true. rewrite Hdev. split; reflexivity.
  - destruct (writeHead 500 _ res); reflexivity.
Qed.

(** [proxy_hooks_logging] in production and in development. *)
Lemma proxy_hooks_logging_witness :
  onProxyReq {[ "NODE_ENV" := "production" ]} "GET" "/users" [] = [] /\
  onProxyReq {[ "NODE_ENV" := "development" ]} "GET" "/users" []
  = [(LogInfo, "[Proxy] GET /users → http://localhost:5000/users")].
Proof.
  split.
  - destruct (proxy_hooks_logging {[ "NODE_ENV" := "production" ]} "GET" "/users" 200%Z
                ∅ (new_Error "") fresh_response []) as (Hquiet & _ & _).
    apply Hquiet. vm_compute. discriminate.
  - destruct (proxy_hooks_logging {[ "NODE_ENV" := "development" ]} "GET" "/users" 200%Z
                ∅ (new_Error "") fresh_response []) as (_ & Hdev & _).
    destruct (Hdev eq_refl) as [Hreq _]. rewrite Hreq. reflexivity.
Defined.

End ProxyMore.

(** ** More on the API client *)

Module ClientMore.
Import JS JSFacts Client ClientCorrect.

(** *** Outcomes of a call *)

Lemma ok_range (r : Response) :
  ok r = true <-> (200 <= res_status r <= 299)%Z.
Proof. unfold ok. rewrite andb_true_iff, !Z.leb_le. reflexivity. Qed.

(** A 204 response resolves to the empty object without [json()] being
    consulted: it does so even when decoding the body would fail. *)
Theorem request_no_content (this : ApiClient) (localStorage : gmap string string)
    (net : Network) (endpoint : string) (options : RequestInit) (w : Timers)
    (r : Response) :
  net (request_url this endpoint) (request_config this localStorage options) = Responds r ->
  res_status r = 204%Z ->
  fst (request this localStorage net endpoint options w) = Return (JObj []).
Proof.
  intros Hnet Hstatus. unfold request, request_try. cbn [setTimeout]. rewrite Hnet.
  assert (Hok : ok r = true) by (apply ok_range; lia).
  rewrite Hok, Hstatus. reflexivity.
Qed.

(** [request_no_content] at a 204 response whose body cannot be decoded. *)
Lemma request_no_content_witness :
  fst (request (new_ApiClient (fun _ => None) ∅) ∅
         (fun _ _ => Responds
            {| res_status := 204; res_statusText := "No Content";
               json := Throw (ThrownError {| name := "SyntaxError";
                                             message := "Unexpected end of JSON input" |}) |})
         "/api/users/7" no_options no_timers)
  = Return (JObj []).
Proof.
  eapply request_no_content; [reflexivity | reflexivity].
Defined.

(** A call resolves only on a response with a status in 200-299: with the
    empty object for 204 and otherwise with the value [json()] decoded.  No
    other outcome of the network makes [request] return. *)
Theorem request_resolves_iff (this : ApiClient) (localStorage : gmap string string)
    (net : Network) (endpoint : string) (options : RequestInit) (w : Timers)
    (v : JSON) :
  fst (request this localStorage net endpoint options w) = Return v <->
  exists r,
    net (request_url this endpoint) (request_config this localStorage options)
    = Responds r /\
    (200 <= res_status r <= 299)%Z /\
    ((res_status r = 204%Z /\ v = JObj []) \/
     (res_status r <> 204%Z /\ json r = Return v)).
Proof.
  unfold request, request_try. cbn [setTimeout].
  destruct (net _ _) as [r|e|].
  - destruct (ok r) eqn:Hok; cbn [negb].
    + apply ok_range in Hok.
      destruct (Z.eqb_spec (res_status r) 204) as [H204|H204].
      * cbn [fst]. split.
        -- intros [= <-]. exists r. intuition.
        -- intros (r' & [= <-] & _ & [[_ ->]|[Hne _]]); [reflexivity | congruence].
      * destruct (json r) as [v'|t] eqn:Hjson; cbn [fst]; split.
        -- intros [= <-]. exists r. intuition.
        -- intros (r' & [= <-] & _ & [[Heq _]|[_ Hv]]); congruence.
        -- discriminate.
        -- intros (r' & [= <-] & _ & [[Heq _]|[_ Hv]]); congruence.
    + cbn [fst]. split; [discriminate|].
      intros (r' & [= <-] & Hrange & _). apply ok_range in Hrange. congruence.
  - cbn [fst]. split; [discriminate|]. intros (r & Hr & _). discriminate.
  - cbn [fst]. split; [discriminate|]. intros (r & Hr & _). discriminate.
Qed.

(** A successful response whose body [json()] cannot decode fails like a
    transport error: the call throws status 0 with the decoder's message, and
    the status of the response is not reported. *)
Theorem request_undecodable_body (this : ApiClient) (localStorage : gmap string string)
    (net : Network) (endpoint : string) (options : RequestInit) (w : Timers)
    (r : Response) (e : Error) :
  net (request_url this endpoint) (request_config this localStorage options) = Responds r ->
  (200 <= res_status r <= 299)%Z -> res_status r <> 204%Z ->
  json r = Throw (ThrownError e) -> name e <> "AbortError" ->
  fst (request this localStorage net endpoint options w)
  = Throw {| status := 0; statusText := message e; data := JNull |}.
Proof.
  intros Hnet Hrange H204 Hjson Hname. unfold request, request_try. cbn [setTimeout].
  rewrite Hnet. apply ok_range in Hrange. rewrite Hrange. cbn [negb].
  apply Z.eqb_neq in H204. rewrite H204, Hjson. cbn [fst request_catch].
  apply String.eqb_neq in Hname. rewrite Hname. reflexivity.
Qed.

(** [request_undecodable_body] at a 200 response with an HTML body. *)
Lemma request_undecodable_body_witness :
  fst (request (new_ApiClient (fun _ => None) ∅) ∅
         (fun _ _ => Responds
            {| res_status := 200; res_statusText := "OK";
               json := Throw (ThrownError {| name := "SyntaxError";
                                             message := "Unexpected token < in JSON" |}) |})
         "/api/users" no_options no_timers)
  = Throw {| status := 0; statusText := "Unexpected token < in JSON"; data := JNull |}.
Proof.
  eapply (request_undecodable_body _ _ _ _ _ _ _
            {| name := "SyntaxError"; message := "Unexpected token < in JSON" |});
    [reflexivity | cbn; lia | discriminate | reflexivity | discriminate].
Defined.

(** *** Timers *)

(** [request_disarms_after_response] at a 404 response and at an elapsed
    deadline. *)
Lemma request_disarms_after_response_witness :
  armed 0 (snd (request (new_ApiClient (fun _ => None) ∅) ∅ not_found_network
                  "/api/users/7" no_options no_timers)) = false /\
  armed 0 (snd (request (new_ApiClient (fun _ => None) ∅) ∅ (fun _ _ => DeadlineElapses)
                  "/api/slow" no_options no_timers)) = false.
Proof.
  split.
  - apply (request_disarms_after_response _ _ not_found_network _ _ no_timers).
    discriminate.
  - apply (request_disarms_after_response _ _ (fun _ _ => DeadlineElapses) _ _ no_timers).
    discriminate.
Defined.

(** [request_leaves_timer_after_rejection] at a rejection with a value that
    is not an [Error]. *)
Lemma request_leaves_timer_after_rejection_witness :
  armed 0 (snd (request (new_ApiClient (fun _ => None) ∅) ∅
                  (fun _ _ => Rejects (ThrownOther (JStr "offline")))
                  "/api/users" no_options no_timers)) = true.
Proof.
  apply (request_leaves_timer_after_rejection _ _
           (fun _ _ => Rejects (ThrownOther (JStr "offline"))) _ _ no_timers
           (ThrownOther (JStr "offline"))).
  reflexivity.
Defined.


(** *** The options handed to [fetch] *)

Lemma request_config_method (this : ApiClient) (localStorage : gmap string string)
    (options : RequestInit) :
  method (request_config this localStorage options) = method options.
Proof.
  unfold request_config. destruct (localStorage !! "authToken") as [[|c t]|]; reflexivity.
Qed.

Lemma request_config_body (this : ApiClient) (localStorage : gmap string string)
    (options : RequestInit) :
  body (request_config this localStorage options) = body options.
Proof.
  unfold request_config. destruct (localStorage !! "authToken") as [[|c t]|]; reflexivity.
Qed.

(** In terms of the properties the spread of the headers copied, [request]
    passes method and body on unchanged, and for every header other than
    [Authorization] the copied value if there is one and the configured
    default otherwise, with or without a stored token. *)
Lemma request_config_passes_options (this : ApiClient)
    (localStorage : gmap string string) (options : RequestInit) (key : string) :
  method (request_config this localStorage options) = method options /\
  body (request_config this localStorage options) = body options /\
  (key <> "Authorization" ->
   init_headers (request_config this localStorage options) !! key
   = match init_headers options !! key with
     | Some v => Some v
     | None => headers (config this) !! key
     end).
Proof.
  split; [apply request_config_method|]. split; [apply request_config_body|].
  intros Hkey. unfold request_config.
  destruct (localStorage !! "authToken") as [[|c t]|]; cbn [truthy_string init_headers].
  all: rewrite ?lookup_insert_ne by congruence.
  all: rewrite lookup_union;
    destruct (init_headers options !! key), (headers (config this) !! key); reflexivity.
Qed.

Lemma number_text_starts_with_digit (i : nat) :
  starts_with_digit (number_text (Z.of_nat i)) = true.
Proof.
  destruct (Z.of_nat i) as [|p|p] eqn:Hi; [reflexivity | | lia].
  rewrite EnvMore.number_text_pos.
  pose proof (EnvMore.string_of_uint_digits (Pos.to_uint p)) as Hd.
  pose proof (EnvMore.string_of_uint_nonempty p) as Hne.
  destruct (NilEmpty.string_of_uint (Pos.to_uint p)) as [|c r]; [congruence|].
  cbn [Env.all_digits] in Hd. apply andb_true_iff in Hd as [Hc _]. exact Hc.
Qed.

(** Spreading an array of pairs copies only properties named by an index. *)
Lemma spread_pairs_lookup (pairs : list (string * string)) (key : string) :
  starts_with_digit key = false ->
  spread_headers (Some (PairList pairs)) !! key = None.
Proof.
  intros Hkey. cbn [spread_headers]. apply not_elem_of_list_to_map_1.
  intros Hin. apply list_elem_of_fmap in Hin as ([k v] & -> & Hin).
  apply list_elem_of_lookup in Hin as [j Hj].
  rewrite list_lookup_imap in Hj.
  destruct (pairs !! j) as [p|]; [|discriminate Hj].
  cbn in Hj. injection Hj as <- _. cbn [fst] in Hkey.
  rewrite number_text_starts_with_digit in Hkey. discriminate Hkey.
Qed.

(** What reaches [fetch] of the caller's headers depends on their form.  From
    a plain object every header other than [Authorization] is passed on, and
    the configured default is sent for a name the object lacks.  From a
    [Headers] instance nothing is copied: the configured defaults alone are
    sent, whatever the instance holds.  From an array of pairs only
    index-named properties are copied, so for a header name, which starts
    with no digit, the default alone is sent.  Method and body are passed on
    unchanged in every case. *)
Theorem request_headers_by_form (this : ApiClient) (localStorage : gmap string string)
    (o : CallOptions) (key : string) :
  key <> "Authorization" ->
  method (request_config this localStorage (options_of o)) = call_method o /\
  body (request_config this localStorage (options_of o)) = call_body o /\
  match call_headers o with
  | Some (PlainObject entries) =>
      init_headers (request_config this localStorage (options_of o)) !! key
      = match entries !! key with
        | Some v => Some v
        | None => headers (config this) !! key
        end
  | Some (HeadersInstance _) | None =>
      init_headers (request_config this localStorage (options_of o)) !! key
      = headers (config this) !! key
  | Some (PairList pairs) =>
      starts_with_digit key = false ->
      init_headers (request_config this localStorage (options_of o)) !! key
      = headers (config this) !! key
  end.
Proof.
  intros Hkey.
  destruct (request_config_passes_options this localStorage (options_of o) key)
    as (Hm & Hb & Hh).
  split; [exact Hm|]. split; [exact Hb|]. specialize (Hh Hkey).
  rewrite Hh. unfold options_of. cbn [init_headers].
  destruct (call_headers o) as [[entries|entries|pairs]|]; cbn [spread_headers].
  - reflexivity.
  - rewrite lookup_empty. reflexivity.
  - intros Hdigit. rewrite (spread_pairs_lookup pairs) by assumption. reflexivity.
  - rewrite lookup_empty. reflexivity.
Qed.

(** [request_headers_by_form] for a content type given in a plain object and
    in a [Headers] instance. *)
Lemma request_headers_by_form_witness :
  init_headers
    (request_config (new_ApiClient (fun _ => None) ∅) ∅
       (options_of {| call_method := None;
                      call_headers :=
                        Some (PlainObject {[ "Content-Type" := "text/plain" ]});
                      call_body := None |}))
  !! "Content-Type" = Some "text/plain" /\
  init_headers
    (request_config (new_ApiClient (fun _ => None) ∅) ∅
       (options_of {| call_method := None;
                      call_headers :=
                        Some (HeadersInstance [ ("Content-Type", "text/plain") ]);
                      call_body := None |}))
  !! "Content-Type" = Some "application/json".
Proof.
  split.
  - destruct (request_headers_by_form (new_ApiClient (fun _ => None) ∅) ∅
                {| call_method := None;
                   call_headers := Some (PlainObject {[ "Content-Type" := "text/plain" ]});
                   call_body := None |} "Content-Type" ltac:(discriminate))
      as (_ & _ & H).
    cbn [call_headers] in H. rewrite H. reflexivity.
  - destruct (request_headers_by_form (new_ApiClient (fun _ => None) ∅) ∅
                {| call_method := None;
                   call_headers :=
                     Some (HeadersInstance [ ("Content-Type", "text/plain") ]);
                   call_body := None |} "Content-Type" ltac:(discriminate))
      as (_ & _ & H).
    cbn [call_headers] in H. rewrite H. reflexivity.
Defined.

(** A client built from the environment always sends a [Content-Type] and an
    [X-API-Version] header.  They are the caller's only when the caller gives
    them in a plain object; otherwise, and for headers given as a [Headers]
    instance or as an array of pairs, they are [application/json] and the
    configured version, [v1] when [REACT_APP_API_VERSION] is unset or empty. *)
Theorem request_default_headers_by_form (toNumber : option string -> option Z)
    (env localStorage : gmap string string) (o : CallOptions) :
  let hs :=
    init_headers (request_config (new_ApiClient toNumber env) localStorage (options_of o)) in
  let version :=
    match env !! "REACT_APP_API_VERSION" with
    | Some (String c v) => String c v
    | _ => "v1"
    end in
  match call_headers o with
  | Some (PlainObject entries) =>
      hs !! "Content-Type"
      = Some (default "application/json" (entries !! "Content-Type")) /\
      hs !! "X-API-Version" = Some (default version (entries !! "X-API-Version"))
  | _ =>
      hs !! "Content-Type" = Some "application/json" /\
      hs !! "X-API-Version" = Some version
  end.
Proof.
  assert (Hv : or_string (env !! "REACT_APP_API_VERSION") "v1"
               = match env !! "REACT_APP_API_VERSION" with
                 | Some (String c v) => String c v
                 | _ => "v1"
                 end).
  { unfold or_string. destruct (env !! "REACT_APP_API_VERSION") as [[|c v]|]; reflexivity. }
  assert (Hct : headers (config (new_ApiClient toNumber env)) !! "Content-Type"
                = Some "application/json").
  { cbn [new_ApiClient config getApiConfig headers]. apply lookup_insert_eq. }
  assert (Hav : headers (config (new_ApiClient toNumber env)) !! "X-API-Version"
                = Some (match env !! "REACT_APP_API_VERSION" with
                        | Some (String c v) => String c v
                        | _ => "v1"
                        end)).
  { cbn [new_ApiClient config getApiConfig headers].
    rewrite lookup_insert_ne by discriminate. rewrite lookup_singleton_eq, Hv.
    reflexivity. }
  cbn zeta.
  destruct (request_config_passes_options (new_ApiClient toNumber env) localStorage
              (options_of o) "Content-Type") as (_ & _ & H1).
  destruct (request_config_passes_options (new_ApiClient toNumber env) localStorage
              (options_of o) "X-API-Version") as (_ & _ & H2).
  rewrite H1, H2 by discriminate. unfold options_of. cbn [init_headers].
  rewrite Hct, Hav.
  destruct (call_headers o) as [[entries|entries|pairs]|]; cbn [spread_headers].
  - destruct (entries !! "Content-Type"), (entries !! "X-API-Version"); split; reflexivity.
  - rewrite !lookup_empty. split; reflexivity.
  - rewrite !(spread_pairs_lookup pairs) by reflexivity. split; reflexivity.
  - rewrite !lookup_empty. split; reflexivity.
Qed.

(** *** The verbs *)

(** The caller cannot override what a verb fixes: [get] and [delete] ignore
    the method of the options, and the write verbs ignore both the method and
    the body of the options; [post], [put] and [patch] send the
    [JSON.stringify] text of the payload and no body when there is none. *)
Theorem verbs_fix_method_and_body (this : ApiClient) (localStorage : gmap string string)
    (net : Network) (endpoint : string) (payload : option JSON)
    (options options' : RequestInit) (w : Timers) :
  init_headers options = init_headers options' ->
  (body options = body options' ->
   get this localStorage net endpoint options w
   = get this localStorage net endpoint options' w /\
   delete_ this localStorage net endpoint options w
   = delete_ this localStorage net endpoint options' w) /\
  post this localStorage net endpoint payload options w
  = post this localStorage net endpoint payload options' w /\
  put this localStorage net endpoint payload options w
  = put this localStorage net endpoint payload options' w /\
  patch this localStorage net endpoint payload options w
  = patch this localStorage net endpoint payload options' w /\
  method (request_config this localStorage (with_method "GET" options)) = Some "GET" /\
  method (request_config this localStorage (with_method "DELETE" options)) = Some "DELETE" /\
  (forall m, m = "POST" \/ m = "PUT" \/ m = "PATCH" ->
     method (request_config this localStorage (with_body m payload options)) = Some m /\
     body (request_config this localStorage (with_body m payload options))
     = match payload with Some p => Some (stringify p) | None => None end).
Proof.
  intros Hh. unfold get, delete_, post, put, patch, with_method, with_body.
  rewrite Hh. split; [intros ->; split; reflexivity|].
  do 3 (split; [reflexivity|]).
  do 2 (split; [apply request_config_method|]).
  intros m _. rewrite request_config_method, request_config_body.
  split; [reflexivity|]. destruct payload; reflexivity.
Qed.

(** [verbs_fix_method_and_body] for two option records that differ in method
    and body only. *)
Lemma verbs_fix_method_and_body_witness :
  post (new_ApiClient (fun _ => None) ∅) ∅ not_found_network "/api/users"
       (Some (JObj [ ("name", JStr "John") ]))
       {| method := Some "GET"; init_headers := ∅; body := Some "ignored" |} no_timers
  = post (new_ApiClient (fun _ => None) ∅) ∅ not_found_network "/api/users"
         (Some (JObj [ ("name", JStr "John") ])) no_options no_timers.
Proof.
  apply (verbs_fix_method_and_body _ _ _ _ _
           {| method := Some "GET"; init_headers := ∅; body := Some "ignored" |}
           no_options).
  reflexivity.
Defined.

(** *** [getApiConfig] *)

(** The configured time-out is never zero: it is 10000 when [Number(...)] of
    [REACT_APP_API_TIMEOUT] is [NaN] or 0, and that number otherwise (a
    negative one included).  The default headers are exactly the content type
    and the API version, and the version is never empty. *)
Theorem getApiConfig_defaults (toNumber : option string -> option Z)
    (env : gmap string string) :
  let cfg := getApiConfig toNumber env in
  timeout cfg <> 0%Z /\
  (toNumber (env !! "REACT_APP_API_TIMEOUT") = None -> timeout cfg = 10000%Z) /\
  (toNumber (env !! "REACT_APP_API_TIMEOUT") = Some 0%Z -> timeout cfg = 10000%Z) /\
  (forall n, toNumber (env !! "REACT_APP_API_TIMEOUT") = Some n -> n <> 0%Z ->
             timeout cfg = n) /\
  dom (headers cfg) = {[ "Content-Type"; "X-API-Version" ]} /\
  headers cfg !! "Content-Type" = Some "application/json" /\
  (exists v, headers cfg !! "X-API-Version" = Some v /\ v <> "").
Proof.
  cbn zeta. unfold getApiConfig. cbn [timeout headers].
  split; [|split; [|split; [|split; [|split; [|split]]]]].
  - destruct (toNumber _) as [n|]; [|discriminate].
    destruct (Z.eqb_spec n 0); [discriminate | assumption].
  - now intros ->.
  - now intros ->.
  - intros n -> Hn. apply Z.eqb_neq in Hn. now rewrite Hn.
  - rewrite dom_insert_L, dom_singleton_L. reflexivity.
  - apply lookup_insert_eq.
  - eexists. split.
    + rewrite lookup_insert_ne by discriminate. apply lookup_singleton_eq.
    + unfold or_string.
      destruct (env !! "REACT_APP_API_VERSION") as [[|c v]|]; discriminate.
Qed.

(** [getApiConfig_defaults] with a coercion that reads [5000]. *)
Lemma getApiConfig_defaults_witness :
  timeout (getApiConfig (fun v => match v with Some _ => Some 5000%Z | None => None end)
             {[ "REACT_APP_API_TIMEOUT" := "5000" ]}) = 5000%Z /\
  timeout (getApiConfig (fun _ => None) ∅) = 10000%Z.
Proof.
  split.
  - destruct (getApiConfig_defaults
                (fun v => match v with Some _ => Some 5000%Z | None => None end)
                {[ "REACT_APP_API_TIMEOUT" := "5000" ]}) as (_ & _ & _ & Hn & _).
    apply Hn; [reflexivity | discriminate].
  - destruct (getApiConfig_defaults (fun _ => None) ∅) as (_ & Hnan & _).
    apply Hnan. reflexivity.
Defined.

End ClientMore.
